(* ===== verification/_CoqProject ===== *)
-Q . S2P
Prelude.v
Builtins.v
Config.v
Runtime.v
Samples.v
Validator.v
Persist.v
Localizer.v
Scorer.v
Handler.v
Threads.v
Server.v
