(* ===== verification/Prelude.v ===== *)
(** * A verification development of face-api ([src/app.py])

    ** The program

    The repository is one Flask application, [src/app.py] (143 lines),
    whose one real route, [POST /verify], takes five image uploads (a
    selfie and four candidates), says for each candidate whether it shows
    the selfie's face, and deletes every file it wrote.  Its parts:
    - the request validator: [allowed_file] (lines 24-25) and the field
      loop at the top of [verify] (60-68);
    - the image normaliser and persister [save_file] (27-38): decode,
      shrink to 1200 x 1200, write a JPEG under a [uuid4] name;
    - the face localiser [crop_face] (40-51): MTCNN's detections, the
      largest by area, clamped and sliced out of the array, resized to
      112 x 112;
    - the similarity scorer, the body of the candidate loop (84-127): two
      temporary crops, [DeepFace.verify] under [try]/[except]/[finally],
      the match rule [distance <= 0.55];
    - the orchestrator [verify] (58-141): validation, then [try]: save the
      five uploads, crop the selfie, score the candidates, aggregate
      [final_decision]; [finally]: remove every saved path;
    - the routes: [home] (54-56) and Flask's dispatch and error pages;
    - start-up and serving: [os.makedirs] of the upload directory (16)
      and [app.run(debug=True)] (143-144), whose werkzeug development
      server runs every request in a thread of its own (the default
      since Flask 1.0), the threads sharing the disk and the [uuid4]
      source.

    ** The files

    - [Prelude.v] (this file): Python exceptions ([exn]), outcomes
      ([outcome]: [Ret] or [Raise]), the state-and-exception monad [M S A
      = S -> outcome A * S] with Python's [try]/[finally], [try]/[except]
      and [for] loops, Hoare triples over [M] with their rules, the
      invariant form [preserves], the tactic [run_m], and lemmas on
      lists of distinct items ([NoDup] along [⊆+] and permutations).
    - [Builtins.v]: the Python built-ins the code applies to its data:
      indexing, slicing (CPython's bound normalisation, also numpy's basic
      slicing), [max] with a key (first maximum kept), [dict] insertion,
      [any], [str.lower] (Latin-1), [str.rsplit(".", 1)], floats as
      rationals with infinities and NaN.
    - [Config.v]: the constants of lines 11-14 and the literals of the
      functions; [CUSTOM_THRESHOLD] is the exact binary64 value of 0.55.
    - [Runtime.v]: requests, uploads, images, detections, result entries
      and responses; the world (files by path, directories, the [uuid4]
      counter, a write quota, a log of writes and removals);
      [Image.save] (which fails without the file's directory),
      [os.remove], [os.makedirs], [Image.open] on a path; and the
      libraries as type classes ([Pillow], [Mtcnn], [DeepFace],
      [Werkzeug], [Uuid]) with the laws the proofs assume ([PillowLaws],
      [WerkzeugLaws], [UuidLaws]).
    - [Samples.v]: executable instances of those classes, which satisfy
      the laws, used by the witnesses.
    - [Validator.v]: [allowed_file], [validate_loop], [validate], and
      the declarative specification [validate_spec] the loop refines.
    - [Persist.v]: [save_file] and its parts.
    - [Localizer.v]: [crop_face], [crop_box], [crop_array].
    - [Scorer.v]: [candidate_step], [score_pair], [deepface_entry],
      [is_match].
    - [Handler.v]: [verify] (with [save_all], [score_candidates],
      [verify_body] and the [finally] block [cleanup]), [home_text],
      [flask_response], Flask's URL map [allowed_methods] and the router
      [handle].
    - [Threads.v]: [verify] cut at its library calls into atomic steps:
      the local state of a request [rthread] (a program counter [pc]
      holding the handler's locals, and [saved_paths]), one step
      [thread_step] on the shared world, the thread [spawn] of a new
      request (Flask's dispatch and the field loop, which only read the
      request), and [thread_run], a thread run alone with fuel.
    - [Server.v]: [startup] and the threaded server: a state [tserver]
      (the world, the requests in flight, the answers sent) and the
      transition relation [server_step] (accept a request, let any
      request in flight take one step, send a finished answer), so that
      every interleaving of the requests is a run; the files each request
      owns ([owned], [reserved]) and the invariant [pool_inv] of the
      reachable states, proved one step of one request at a time against
      the rest of the pool ([local_ok], [thread_step_local]).
    A handler that returns early is a value of [response]; an exception
    is a [Raise] of [outcome]; the local list [saved_paths], which the
    [finally] block reads, is the second component of the handler's
    state [world * list string].  Every definition is executable; the
    concrete runs of [Handler.v] evaluate the whole handler by
    [vm_compute].

    ** The theorems

    - Cleanup (C1): on every exit of [verify] (validation error, 400, 200
      or exception) every file the request wrote is gone and every other
      file is unchanged, as long as the disk takes the writes; proved from
      an invariant preserved by every statement of the body.
    - Answers of [verify] (C2, C5, C6, C18): the 200 lists img1 .. img4 in
      order with [final_decision] the [any] of the matches; a faceless
      selfie gives 400; an undecodable upload gives 500 whatever the
      selfie shows; an oversized request gets the 413.
    - Validation (C3, C4, C13, C20): the first failing field, in
      [expected] order, is reported; a passing request hands on the five
      uploads in order; the loop refines [validate_spec]; [allowed_file]
      decides the extension rule.
    - Scoring (C7-C10): the match rule, [<=] at the threshold's binary64
      value; the effect of one candidate; the crop error that escapes the
      per-candidate [try]; the temporary crop that leaks when the disk
      fills between the two saves.
    - Threads and the server (C11, C12, C14, C15, C16, C19): started on
      an empty disk without write limit, whatever requests arrive and
      however their steps interleave, every file on the disk belongs to
      exactly one request in flight, and with none in flight the disk is
      empty; a request's thread run alone computes exactly [handle];
      every state can be drained, all requests in flight answered and
      the disk left empty; [uploads/] stays; every step of a request
      lowers its measure, so each request finishes; start-up on every
      branch.
    - Routes (C17, C28): only [POST /verify] changes the world; the
      literal answers of [home], [OPTIONS], 405 and 404.
    - Localisation and persistence (C21-C27): [crop_face] crops the first
      box of greatest [w * h] and resizes it to 112 x 112, changing
      nothing; the effect of [save_file] on every branch; the size bound
      of stored images; the crop within the image; the shifted crop of a
      box sticking out to the left.

    ** Bounds and fuel

    Every loop of the source runs over a list ([for] over [expected],
    over the saved paths, over the candidates) and is a structural
    recursion.  The one fuel is that of [thread_run], a request's thread
    run alone: [thread_measure] bounds its remaining steps (ten per
    upload still to save, eight per candidate still to score, one per
    saved path still to remove, a few more for the phase changes; 54 for
    a fresh [POST /verify] of five uploads), it decreases at every step
    whatever the world (C16), so that fuel is always enough, and with it
    the run gives exactly [handle]'s result (C12).  The disk's free space
    is a write quota: [None] for a disk that takes every write, [Some n]
    for [n] more writes.  The server runs through any number of steps
    ([rtc server_step]), with requests arriving at any time.

    ** Not modelled

    The internals of Pillow, MTCNN and DeepFace (only the laws above are
    assumed), the randomness of [uuid4] (a counter of draws; [UuidLaws]
    assumes draws do not repeat), [secure_filename] (any function without
    a slash in its result), jsonify's serialisation, the objects
    [Flask(__name__)] and [MTCNN()] create at lines 17 and 21 (the model
    takes the configuration as constants and the detector as an
    instance), interleavings inside one library call (each [save_file],
    [crop_face], [save], [DeepFace.verify] and [os.remove] is one atomic
    step; a request only ever touches paths it drew itself, so a finer
    cut would not change what another request sees), and several worker
    processes. *)

From stdpp Require Export base list gmap strings.
From Stdlib Require Export ZArith Ascii.
From Stdlib Require String.

Declare Scope py_scope.
Delimit Scope py_scope with py.


(** ** Python exceptions and outcomes *)

(** A Python exception as the code observes it: its class name and the
    text [str(e)] that the handler copies into a result entry. *)
Record exn := mkExn { exn_type : string; exn_msg : string }.

#[export] Instance exn_eq_dec : EqDecision exn.
Proof. solve_decision. Defined.

(** A computation either returns a value or raises. *)
Inductive outcome (A : Type) : Type :=
| Ret (a : A)
| Raise (e : exn).
Arguments Ret {A} a.
Arguments Raise {A} e.

Definition is_raise {A} (r : outcome A) : bool :=
  match r with Raise _ => true | Ret _ => false end.

(** Pure code that may raise runs in [outcome] itself. *)
#[export] Instance outcome_ret : MRet outcome := λ A a, Ret a.
#[export] Instance outcome_bind : MBind outcome := λ A B k r,
  match r with Ret a => k a | Raise e => Raise e end.

(** ** A state-and-exception monad

    [M S A] threads a state [S] (the world, or a handler frame) and may
    raise.  The state is returned on both exits, as in Python, where the
    side effects performed before an exception stay performed. *)
Definition M (S A : Type) : Type := S → outcome A * S.

#[export] Instance M_ret S : MRet (M S) := λ A a s, (Ret a, s).
#[export] Instance M_bind S : MBind (M S) := λ A B k m s,
  match m s with
  | (Ret a, s') => k a s'
  | (Raise e, s') => (Raise e, s')
  end.

Definition raise {S A} (e : exn) : M S A := λ s, (Raise e, s).

(** Pure fallible code called from stateful code. *)
Definition lift_outcome {S A} (r : outcome A) : M S A := λ s, (r, s).
Definition get_st {S} : M S S := λ s, (Ret s, s).
Definition put_st {S} (s : S) : M S unit := λ _, (Ret tt, s).
Definition modify_st {S} (f : S → S) : M S unit := λ s, (Ret tt, f s).

(** [try: body finally: fin]: [fin] always runs; an exception it raises
    replaces the outcome of [body], otherwise [body]'s outcome (a value
    or its exception) is kept. *)
Definition try_finally {S A} (body : M S A) (fin : M S unit) : M S A :=
  λ s,
    let '(r, s1) := body s in
    let '(r2, s2) := fin s1 in
    (match r2 with Ret _ => r | Raise e => Raise e end, s2).

(** [try: body except Exception as e: h(e)]. *)
Definition try_except {S A} (body : M S A) (h : exn → M S A) : M S A :=
  λ s,
    match body s with
    | (Raise e, s1) => h e s1
    | res => res
    end.

(** A [for] loop whose body may raise; the first exception ends it. *)
Fixpoint for_each {S A} (l : list A) (body : A → M S unit) : M S unit :=
  match l with
  | [] => mret tt
  | x :: l' => body x ;; for_each l' body
  end.

(** A [for] loop that accumulates a value (a list being appended to). *)
Fixpoint fold_m {S A B} (f : B → A → M S B) (l : list A) (acc : B) : M S B :=
  match l with
  | [] => mret acc
  | x :: l' => acc' ← f acc x; fold_m f l' acc'
  end.

(** Run a computation on the first component of a pair of states: the
    world, when the second component holds the local variables of a
    handler frame. *)
Definition on_fst {S T A} (m : M S A) : M (S * T) A :=
  λ '(s, t), let '(r, s') := m s in (r, (s', t)).

(** ** Hoare triples over [M]

    [triple P m Q]: from every state satisfying [P], [m] ends with an
    outcome and a state satisfying [Q].  The rules below let the
    component files prove their invariants one statement at a time. *)
Definition triple {S A} (P : S → Prop) (m : M S A) (Q : outcome A → S → Prop) : Prop :=
  ∀ s, P s → Q (m s).1 (m s).2.

(** The postcondition of a statement followed by more code: a value
    leads to [R], an exception must already satisfy the final [Q]. *)
Definition then_post {S A B} (R : A → S → Prop) (Q : outcome B → S → Prop) :
  outcome A → S → Prop :=
  λ r s, match r with Ret a => R a s | Raise e => Q (Raise e) s end.

Section Triples.
Context {St : Type}.

Lemma triple_ret {A} (P : St → Prop) (a : A) Q :
  (∀ s, P s → Q (Ret a) s) → triple P (mret a) Q.
Proof. intros H s Hs. by apply H. Qed.

Lemma triple_raise {A} (P : St → Prop) e (Q : outcome A → St → Prop) :
  (∀ s, P s → Q (Raise e) s) → triple P (raise e) Q.
Proof. intros H s Hs. by apply H. Qed.

Lemma triple_bind {A B} (P : St → Prop) (m : M St A) (k : A → M St B) R Q :
  triple P m (then_post R Q) → (∀ a, triple (R a) (k a) Q) →
  triple P (m ≫= k) Q.
Proof.
  intros Hm Hk s Hs. specialize (Hm s Hs). unfold mbind, M_bind.
  destruct (m s) as [[a|e] s']; cbn in *; [by apply Hk|done].
Qed.

Lemma triple_conseq {A} (P P' : St → Prop) (m : M St A) (Q Q' : outcome A → St → Prop) :
  triple P' m Q' → (∀ s, P s → P' s) → (∀ r s, Q' r s → Q r s) → triple P m Q.
Proof. intros H HP HQ s Hs. apply HQ, H, HP, Hs. Qed.

Lemma triple_try_finally {A} (P : St → Prop) (body : M St A) fin R
      (Q : outcome A → St → Prop) :
  triple P body R →
  (∀ r, triple (R r) fin (λ r2 s, Q (match r2 with Ret _ => r | Raise e => Raise e end) s)) →
  triple P (try_finally body fin) Q.
Proof.
  intros Hb Hf s Hs. specialize (Hb s Hs). unfold try_finally.
  destruct (body s) as [r s1] eqn:E1. specialize (Hf r s1 Hb).
  destruct (fin s1) as [r2 s2]. exact Hf.
Qed.

Lemma triple_try_except {A} (P : St → Prop) (body : M St A) h R (Q : outcome A → St → Prop) :
  triple P body (λ r s, match r with Ret a => Q (Ret a) s | Raise e => R e s end) →
  (∀ e, triple (R e) (h e) Q) →
  triple P (try_except body h) Q.
Proof.
  intros Hb Hh s Hs. specialize (Hb s Hs). unfold try_except.
  destruct (body s) as [[a|e] s1]; cbn in *; [done|by apply Hh].
Qed.

(** A loop invariant [I], indexed by the number of iterations done. *)
Lemma triple_fold_m {A B} (f : B → A → M St B) (l : list A) (I : nat → B → St → Prop)
      (Q : outcome B → St → Prop) :
  (∀ i x acc, l !! i = Some x →
     triple (I i acc) (f acc x) (then_post (I (S i)) Q)) →
  (∀ acc s, I (length l) acc s → Q (Ret acc) s) →
  ∀ acc, triple (I 0 acc) (fold_m f l acc) Q.
Proof.
  revert I. induction l as [|x l IH]; intros I Hstep Hend acc.
  - apply triple_ret. exact (Hend acc).
  - cbn [fold_m]. eapply triple_bind; [by apply (Hstep 0)|].
    intros acc'. apply (IH (λ i, I (S i))); [|done].
    intros i y a Hi. by apply (Hstep (S i)).
Qed.

Lemma triple_for_each {A} (l : list A) (body : A → M St unit) (I : nat → St → Prop)
      (Q : outcome unit → St → Prop) :
  (∀ i x, l !! i = Some x → triple (I i) (body x) (then_post (λ _, I (S i)) Q)) →
  (∀ s, I (length l) s → Q (Ret tt) s) →
  triple (I 0) (for_each l body) Q.
Proof.
  revert I. induction l as [|x l IH]; intros I Hstep Hend.
  - apply triple_ret. exact Hend.
  - cbn [for_each]. eapply triple_bind; [by apply (Hstep 0)|].
    intros []. apply (IH (λ i, I (S i))); [|done].
    intros i y Hi. by apply (Hstep (S i)).
Qed.

(** [preserves I m]: whatever [m] does, returning or raising, the state
    it leaves satisfies [I] when the state it starts from does. *)
Definition preserves {A} (I : St → Prop) (m : M St A) : Prop := triple I m (λ _ s, I s).

Lemma preserves_ret {A} I (a : A) : preserves I (mret a).
Proof. by apply triple_ret. Qed.

Lemma preserves_lift {A} I (r : outcome A) : preserves I (lift_outcome r).
Proof. intros s Hs. exact Hs. Qed.

Lemma preserves_get I : preserves I get_st.
Proof. intros s Hs. exact Hs. Qed.

Lemma preserves_bind {A B} I (m : M St A) (k : A → M St B) :
  preserves I m → (∀ a, preserves I (k a)) → preserves I (m ≫= k).
Proof.
  intros Hm Hk. eapply triple_bind; [|exact Hk].
  eapply triple_conseq; [exact Hm|done|]. by intros [] s.
Qed.

Lemma preserves_fold_m {A B} I (f : B → A → M St B) l acc :
  (∀ acc x, x ∈ l → preserves I (f acc x)) → preserves I (fold_m f l acc).
Proof.
  revert acc. induction l as [|x l IH]; intros acc Hf; cbn [fold_m].
  - apply preserves_ret.
  - apply preserves_bind; [apply Hf; set_solver|]. intros a. apply IH. intros; apply Hf; set_solver.
Qed.

Lemma preserves_for_each {A} I (l : list A) (body : A → M St unit) :
  (∀ x, x ∈ l → preserves I (body x)) → preserves I (for_each l body).
Proof.
  induction l as [|x l IH]; intros Hb; cbn [for_each].
  - apply preserves_ret.
  - apply preserves_bind; [apply Hb; set_solver|]. intros _. apply IH. intros; apply Hb; set_solver.
Qed.

End Triples.

Lemma preserves_on_fst {St T A} (I : St → T → Prop) (m : M St A) :
  (∀ t, preserves (λ s, I s t) m) → preserves (λ st : St * T, I st.1 st.2) (on_fst m).
Proof.
  intros H [s t] Hs. specialize (H t s Hs). unfold on_fst. cbn in *.
  destruct (m s) as [r s']. exact H.
Qed.

Lemma on_fst_run {St T A} (m : M St A) (s : St) (t : T) :
  on_fst m (s, t) = ((m s).1, ((m s).2, t)).
Proof. unfold on_fst. by destruct (m s). Qed.

(** ** Running a computation *)

(** The equations of the monad, used by [run_m] and the component files. *)
Lemma bind_ret_l {S A B} (a : A) (k : A → M S B) s : (mret a ≫= k) s = k a s.
Proof. reflexivity. Qed.

Create HintDb faceapi.
Create Rewrite HintDb faceapi_rw.
#[export] Hint Rewrite @bind_ret_l : faceapi_rw.

(** [run_m] unfolds the monad's instances and reduces; it is the first
    step of every proof about a concrete computation. *)
Ltac run_m :=
  cbv [mret mbind M_ret M_bind outcome_ret outcome_bind lift_outcome raise
       get_st put_st modify_st] in *.

(** ** Lists of distinct items

    The server keeps, for every request in flight, the list of paths it
    owns; that no two requests own the same path is [NoDup] of their
    concatenation.  These lemmas move [NoDup] and [Forall] along the
    sub-multiset order [⊆+] and permutations. *)

Lemma NoDup_submseteq_inv {A} (l k : list A) : l ⊆+ k → NoDup k → NoDup l.
Proof.
  intros (x & Hx)%submseteq_Permutation Hk. rewrite Hx in Hk.
  by apply NoDup_app in Hk as [? _].
Qed.

Lemma Forall_submseteq_inv {A} (P : A → Prop) (l k : list A) : l ⊆+ k → Forall P k → Forall P l.
Proof.
  intros Hlk Hk. apply Forall_forall. intros x Hx.
  rewrite Forall_forall in Hk. apply Hk. by eapply elem_of_submseteq.
Qed.

(** Replacing the item at [i] permutes it to the front. *)
Lemma insert_Permutation {A} (l : list A) i x y :
  l !! i = Some y → <[i := x]> l ≡ₚ x :: delete i l.
Proof.
  revert i. induction l as [|z l IH]; intros [|i] Hi; try done; cbn in *.
  rewrite (IH i Hi). apply Permutation_swap.
Qed.
