(* ===== verification/Builtins.v ===== *)
(** * Python built-ins used by [src/app.py]

    The semantics of the Python operations the application applies to its
    own data: list indexing and slicing (also numpy's basic slicing of an
    image array, which follows the same clamping rules), [max] with a
    [key], insertion into a [dict], [any], [str.lower], [str.rsplit] with
    [maxsplit=1], membership of a character in a string, and the
    comparison of Python floats.  Strings are [string]s of 8-bit
    characters standing for code points below 256, on which [str.lower]
    is the Latin-1 case mapping. *)

From S2P Require Import Prelude.
Local Set Warnings "-clear-no-such-hyp".
From Stdlib Require Import QArith_base.
Close Scope Q_scope.

(** ** Exceptions raised by built-ins *)
Definition IndexError : exn := mkExn "IndexError" "list index out of range".
Definition ValueError_max : exn := mkExn "ValueError" "max() arg is an empty sequence".

(** ** Lists *)

(** [l[i]], with Python's negative indices. *)
Definition py_index {A} (l : list A) (i : Z) : outcome A :=
  let j := if (i <? 0)%Z then (i + Z.of_nat (length l))%Z else i in
  if (j <? 0)%Z then Raise IndexError
  else match l !! Z.to_nat j with
       | Some x => Ret x
       | None => Raise IndexError
       end.

(** A slice bound normalised as CPython's [PySlice_AdjustIndices] does for
    step 1: a negative bound counts from the end, then it is clamped to
    [0 .. n]. *)
Definition slice_bound (n b : Z) : Z :=
  if (b <? 0)%Z then Z.max 0 (b + n) else Z.min b n.

(** [l[start:stop]]. *)
Definition py_slice {A} (l : list A) (start stop : Z) : list A :=
  let n := Z.of_nat (length l) in
  let a := slice_bound n start in
  let b := slice_bound n stop in
  take (Z.to_nat (b - a)) (drop (Z.to_nat a) l).

(** [max(l, key=key)]: CPython's [min_max] keeps the first item whose key
    is strictly greater than the best so far, so ties go to the earliest
    item; an empty sequence raises [ValueError]. *)
Definition max_step {A} (key : A → Z) (best : A) (x : A) : A :=
  if (key best <? key x)%Z then x else best.

Definition py_max_by {A} (key : A → Z) (l : list A) : outcome A :=
  match l with
  | [] => Raise ValueError_max
  | x :: l' => Ret (foldl (max_step key) x l')
  end.

(** [any(l)]. *)
Definition py_any (l : list bool) : bool := existsb id l.

(** [d[k] = v] on a [dict] kept as its list of items in insertion order:
    an existing key keeps its position, a new key goes to the end. *)
Fixpoint dict_set {K V} `{EqDecision K} (k : K) (v : V) (d : list (K * V)) : list (K * V) :=
  match d with
  | [] => [(k, v)]
  | (k', v') :: d' => if decide (k = k') then (k, v) :: d' else (k', v') :: dict_set k v d'
  end.

(** [d.get(k)]: the value of the first item with key [k]. *)
Fixpoint dict_get {K V} `{EqDecision K} (k : K) (d : list (K * V)) : option V :=
  match d with
  | [] => None
  | (k', v') :: d' => if decide (k = k') then Some v' else dict_get k d'
  end.

(** ** Strings *)

(** [str.lower] on one code point below 256: A-Z and the Latin-1 capitals
    U+00C0-U+00DE except U+00D7 map to the letter 32 positions on. *)
Definition char_lower (c : ascii) : ascii :=
  let n := nat_of_ascii c in
  if ((65 <=? n) && (n <=? 90) || (192 <=? n) && (n <=? 222) && negb (n =? 215))%nat
  then ascii_of_nat (n + 32) else c.

Fixpoint str_lower (s : string) : string :=
  match s with
  | EmptyString => EmptyString
  | String c s' => String (char_lower c) (str_lower s')
  end.

(** [c in s] for a one-character string [c]. *)
Fixpoint str_has (c : ascii) (s : string) : bool :=
  match s with
  | EmptyString => false
  | String c' s' => bool_decide (c = c') || str_has c s'
  end.

(** The split at the last occurrence of [sep]: [Some (head, tail)]. *)
Fixpoint split_last (sep : ascii) (s : string) : option (string * string) :=
  match s with
  | EmptyString => None
  | String c s' =>
      match split_last sep s' with
      | Some (a, b) => Some (String c a, b)
      | None => if decide (c = sep) then Some (EmptyString, s') else None
      end
  end.

(** [s.rsplit(sep, 1)]. *)
Definition py_rsplit1 (sep : ascii) (s : string) : list string :=
  match split_last sep s with
  | Some (a, b) => [a; b]
  | None => [s]
  end.

(** ** Python floats

    A Python [float] is an IEEE binary64 value: a finite value is a dyadic
    rational, kept as [Q]; infinities and NaN are kept apart.  Every
    comparison with NaN is false. *)
Inductive pyfloat :=
| PFin (q : Q)
| PInf
| PNInf
| PNaN.

Definition py_le (x y : pyfloat) : bool :=
  match x, y with
  | PNaN, _ | _, PNaN => false
  | PNInf, _ | _, PInf => true
  | PInf, _ | _, PNInf => false
  | PFin a, PFin b => Qle_bool a b
  end.

(** ** Lemmas *)

Lemma slice_bound_range n b : (0 ≤ n)%Z → (0 ≤ slice_bound n b ≤ n)%Z.
Proof. intros Hn. unfold slice_bound. destruct (Z.ltb_spec b 0); lia. Qed.

Lemma slice_bound_nonneg n b : (0 ≤ b)%Z → slice_bound n b = Z.min b n.
Proof. intros Hb. unfold slice_bound. destruct (Z.ltb_spec b 0); lia. Qed.

(** The length of a slice: the distance between the normalised bounds,
    or zero when they cross. *)
Lemma length_py_slice {A} (l : list A) a b :
  length (py_slice l a b) =
  Z.to_nat (slice_bound (Z.of_nat (length l)) b - slice_bound (Z.of_nat (length l)) a).
Proof.
  unfold py_slice. rewrite length_take, length_drop.
  pose proof (slice_bound_range (Z.of_nat (length l)) a ltac:(lia)).
  pose proof (slice_bound_range (Z.of_nat (length l)) b ltac:(lia)).
  lia.
Qed.

(** Reading a slice: its [i]-th item is the item [a + i] of the list. *)
Lemma length_py_slice_le {A} (l : list A) a b : length (py_slice l a b) ≤ length l.
Proof. unfold py_slice. rewrite length_take, length_drop. lia. Qed.

Lemma lookup_py_slice {A} (l : list A) a b i :
  i < length (py_slice l a b) →
  py_slice l a b !! i = l !! (Z.to_nat (slice_bound (Z.of_nat (length l)) a) + i).
Proof.
  intros Hi. unfold py_slice in *. rewrite length_take in Hi.
  rewrite lookup_take_lt by lia. by rewrite lookup_drop.
Qed.

Lemma elem_of_py_slice {A} (l : list A) a b x : x ∈ py_slice l a b → x ∈ l.
Proof.
  unfold py_slice. intros (i & Hi & _)%elem_of_take.
  rewrite lookup_drop in Hi. by eapply list_elem_of_lookup_2.
Qed.

Lemma max_step_cases {A} (key : A → Z) b x :
  (max_step key b x = x ∧ (key b < key x)%Z) ∨ (max_step key b x = b ∧ (key x ≤ key b)%Z).
Proof. unfold max_step. destruct (Z.ltb_spec (key b) (key x)); [left|right]; done. Qed.

(** The fold of [max]: its result is the start or an item of the list,
    no item has a greater key, and every item before the one kept has a
    strictly smaller key. *)
Lemma foldl_max_step_spec {A} (key : A → Z) (l : list A) (x0 : A) :
  (foldl (max_step key) x0 l = x0 ∨ foldl (max_step key) x0 l ∈ l) ∧
  (key x0 ≤ key (foldl (max_step key) x0 l))%Z ∧
  (∀ y, y ∈ l → (key y ≤ key (foldl (max_step key) x0 l))%Z).
Proof.
  revert x0. induction l as [|x l IH]; intros x0; cbn [foldl].
  - split; [by left|]. split; [lia|]. intros y Hy. inversion Hy.
  - destruct (IH (max_step key x0 x)) as (Hmem & Hge & Hall).
    set (r := foldl (max_step key) (max_step key x0 x) l) in *.
    destruct (max_step_cases key x0 x) as [[Hm Hlt]|[Hm Hle]]; rewrite Hm in Hmem, Hge.
    + split; [destruct Hmem as [->|]; right; set_solver|].
      split; [lia|]. intros y [->|Hy]%elem_of_cons; [lia|auto].
    + split; [destruct Hmem as [->|]; [left|right; set_solver]; done|].
      split; [lia|]. intros y [->|Hy]%elem_of_cons; [lia|auto].
Qed.

Lemma split_last_Some sep s a b :
  split_last sep s = Some (a, b) → s = a +:+ String sep b ∧ str_has sep b = false.
Proof.
  revert a b. induction s as [|c s IH]; intros a b; cbn; [done|].
  destruct (split_last sep s) as [[a' b']|] eqn:E.
  - intros [= <- <-]. destruct (IH a' b' eq_refl) as [-> Hb]. done.
  - case_decide as Hc; [|done]. intros [= <- <-]. subst c. split; [done|].
    clear IH. induction s as [|c s IHs]; cbn in *; [done|].
    destruct (split_last sep s) as [[]|]; [done|].
    case_decide; [done|]. rewrite bool_decide_false by done. by apply IHs.
Qed.

Lemma split_last_None sep s : split_last sep s = None ↔ str_has sep s = false.
Proof.
  induction s as [|c s IH]; cbn; [done|].
  destruct (split_last sep s) as [[a b]|] eqn:E.
  - split; [done|]. intros [_ Hs]%orb_false_iff. apply IH in Hs. congruence.
  - case_decide as Hc.
    + subst c. by rewrite bool_decide_true.
    + rewrite bool_decide_false by congruence. cbn. by rewrite <- IH.
Qed.

(** Two names split at a dot that neither stem contains have equal
    stems. *)
Lemma app_dot_inj sep a b e1 e2 :
  str_has sep a = false → str_has sep b = false →
  a +:+ String sep e1 = b +:+ String sep e2 → a = b.
Proof.
  revert b. induction a as [|c a IH]; intros [|c' b] Ha Hb Heq; simpl in *.
  - done.
  - injection Heq as -> _. by rewrite bool_decide_true in Hb.
  - injection Heq as <- _. by rewrite bool_decide_true in Ha.
  - injection Heq as -> Heq. apply orb_false_iff in Ha as [_ Ha].
    apply orb_false_iff in Hb as [_ Hb]. f_equal. by apply IH.
Qed.

Lemma string_app_assoc (a b c : string) : a +:+ (b +:+ c) = (a +:+ b) +:+ c.
Proof. induction a as [|x a IH]; [reflexivity|]. exact (f_equal (String x) IH). Qed.

Lemma append_cancel_l (s a b : string) : s +:+ a = s +:+ b → a = b.
Proof. induction s as [|c s IH]; simpl; [done|]. intros Heq. injection Heq. apply IH. Qed.

(** Splitting a name built with [sep] at its last [sep] gives back its
    two parts, when the second has no [sep]. *)
Lemma split_last_app sep stem ext :
  str_has sep ext = false → split_last sep (stem +:+ String sep ext) = Some (stem, ext).
Proof.
  intros Hext. induction stem as [|c stem IH]; simpl.
  - apply split_last_None in Hext. rewrite Hext. by rewrite decide_True.
  - by rewrite IH.
Qed.

Lemma str_has_app c a b : str_has c (a +:+ b) = str_has c a || str_has c b.
Proof. induction a as [|c' a IH]; simpl; [done|]. by rewrite IH, orb_assoc. Qed.

(** [str.lower] neither creates nor removes a character below ['A'],
    such as ['.'] or ['/']. *)
Lemma char_lower_eq_low (c d : ascii) :
  nat_of_ascii d < 65 → char_lower c = d ↔ c = d.
Proof.
  intros Hd. unfold char_lower. set (n := nat_of_ascii c).
  destruct ((65 <=? n) && (n <=? 90) || (192 <=? n) && (n <=? 222) && negb (n =? 215))%nat eqn:E;
    [|done].
  assert (65 ≤ n ≤ 222) as Hr.
  { apply orb_true_iff in E as [E|E].
    - apply andb_true_iff in E as [E1 E2]. apply Nat.leb_le in E1, E2. lia.
    - apply andb_true_iff in E as [E _]. apply andb_true_iff in E as [E1 E2].
      apply Nat.leb_le in E1, E2. lia. }
  split; intros Heq.
  - apply (f_equal nat_of_ascii) in Heq. rewrite nat_ascii_embedding in Heq by lia. lia.
  - subst d. unfold n in Hr. lia.
Qed.

Lemma str_has_lower (d : ascii) s :
  nat_of_ascii d < 65 → str_has d (str_lower s) = str_has d s.
Proof.
  intros Hd. induction s as [|c s IH]; simpl; [done|]. rewrite IH. f_equal.
  apply bool_decide_ext. pose proof (char_lower_eq_low c d Hd). naive_solver.
Qed.

#[export] Hint Resolve slice_bound_range : faceapi.
