(* ===== verification/Config.v ===== *)
(** * The configuration constants of [src/app.py]

    Lines 10-14 of [src/app.py], and the literal bounds the functions use:
    [max_dim] of [save_file], the face size of [crop_face], the field
    names of [verify].  The threshold is the binary64 value the literal
    [0.55] denotes, written exactly. *)

From S2P Require Import Prelude Builtins.
From Stdlib Require Import QArith_base.
Close Scope Q_scope.

Definition UPLOAD_FOLDER : string := "uploads".

Definition ALLOWED_EXT : gset string := {[ "png"; "jpg"; "jpeg"; "webp" ]}.

(** [10 * 1024 * 1024], bytes per request. *)
Definition MAX_CONTENT_LENGTH : Z := 10 * 1024 * 1024.

(** The double nearest to 0.55 is 4953959590107546 * 2^-53, that is
    2476979795053773 / 2^52; it lies 4.4e-17 above 0.55. *)
Definition CUSTOM_THRESHOLD : pyfloat := PFin (2476979795053773 # 4503599627370496).

(** [max_dim = 1200] in [save_file]. *)
Definition max_dim : Z := 1200.

(** The side of the square a face crop is resized to in [crop_face]. *)
Definition face_size : Z := 112.

(** [expected] in [verify]: the selfie first, then the four candidates. *)
Definition expected : list string := ["selfie"; "img1"; "img2"; "img3"; "img4"].

(** The recognition model [verify] passes to DeepFace. *)
Definition model_name : string := "ArcFace".
