(* ===== verification/Runtime.v ===== *)
(** * The runtime the application runs against

    The data the handler manipulates (uploads, images, detections, the
    DeepFace result), the world it changes (the files under [uploads/],
    the random source of [uuid4], the free space on the disk, and the log
    of file writes and removals), the operating-system calls it makes
    ([os.remove], [Image.save], [Image.open] on a path, [os.path.join]),
    and the external libraries as type classes: Pillow, MTCNN, DeepFace,
    werkzeug's [secure_filename] and [uuid4].  The laws of
    [PillowLaws] are the only facts about Pillow the proofs use. *)

From S2P Require Import Prelude Builtins Config.

(** ** Data *)

(** An RGB pixel, as [convert("RGB")] leaves it. *)
Definition pixel : Type := Z * Z * Z.

(** A decoded image: its size [(width, height)] as Pillow reports it and
    its rows of pixels, as [np.array(img)] (shape [(height, width, 3)])
    holds them. *)
Record image := mkImage { im_w : Z; im_h : Z; im_rows : list (list pixel) }.

(** An image is well formed when its rows agree with its size. *)
Definition image_wf (i : image) : Prop :=
  (0 ≤ im_w i)%Z ∧ (0 ≤ im_h i)%Z ∧ length (im_rows i) = Z.to_nat (im_h i) ∧
  Forall (λ r, length r = Z.to_nat (im_w i)) (im_rows i).

(** A werkzeug [FileStorage]: the client's file name and the bytes. *)
Record upload := mkUpload { filename : string; stream : list Byte.byte }.

(** The part of a Flask request the handler reads: the method and path
    of the route, the declared body size and the multipart file fields in
    the order the client sent them (a field may be repeated). *)
Record request := mkRequest {
  req_method : string;
  req_path : string;
  req_content_length : Z;
  req_files : list (string * upload)
}.

(** One MTCNN detection: [d['box'] = [x, y, w, h]]. *)
Record detection := mkDetection { box_x : Z; box_y : Z; box_w : Z; box_h : Z }.

(** The dictionary [DeepFace.verify] returns, as read by [res.get]. *)
Record verify_result := mkVerifyResult { res_distance : option pyfloat; res_model : option string }.

(** One entry of [results] in [verify]: a scored candidate
    [{"image_field", "match", "distance", "threshold", "model"}] or a
    candidate that failed [{"image_field", "match": False, "error"}]. *)
Inductive result_entry :=
| REScore (field : string) (is_match : bool) (distance : option pyfloat)
          (threshold : pyfloat) (model : option string)
| REError (field : string) (error : string).

(** [r.get("match")] read as a truth value ([False] for an error entry). *)
Definition entry_match (r : result_entry) : bool :=
  match r with REScore _ m _ _ _ => m | REError _ _ => false end.

Definition entry_field (r : result_entry) : string :=
  match r with REScore f _ _ _ _ => f | REError f _ => f end.

(** What the application answers: a text body ([home]), the answer
    Flask gives an [OPTIONS] request (the methods the route allows), a JSON error
    with its status, the JSON results with status 200, an HTTP error
    raised by Flask or werkzeug (413, 404, 405), or a 500 for an
    exception nothing caught. *)
Inductive response :=
| RespText (body : string)
| RespOptions (allow : gset string)
| RespError (status : Z) (error : string)
| RespResults (results : list result_entry) (final_decision : bool)
| RespHttpError (status : Z) (e : exn)
| RespServerError (e : exn).

(** ** External libraries *)

(** Pillow.  [pil_open] is [Image.open(stream).convert("RGB")] ([None]
    when the bytes are not an image); [pil_thumbnail d] is
    [img.thumbnail((d, d))]; [pil_jpeg] is what a JPEG written by
    [img.save] decodes to; [pil_resize d] is
    [Image.fromarray(a).resize((d, d))], which may raise (Pillow refuses
    to resize an empty array). *)
Class Pillow := {
  pil_open : list Byte.byte → option image;
  pil_thumbnail : Z → image → image;
  pil_jpeg : image → image;
  pil_resize : Z → image → outcome image
}.

(** What the code relies on: a thumbnail fits the box it is given, a JPEG
    round trip keeps the size, a resize has the size asked for. *)
Class PillowLaws `{Pillow} := {
  thumbnail_fits d i : (1 ≤ d)%Z → (im_w (pil_thumbnail d i) ≤ d ∧ im_h (pil_thumbnail d i) ≤ d)%Z;
  jpeg_size i : im_w (pil_jpeg i) = im_w i ∧ im_h (pil_jpeg i) = im_h i;
  resize_size d i j : pil_resize d i = Ret j → im_w j = d ∧ im_h j = d
}.

(** MTCNN's [detector.detect_faces]. *)
Class Mtcnn := { detect_faces : image → list detection }.

(** [DeepFace.verify(img1_path, img2_path, model_name, enforce_detection=False)]
    on the images stored at the two paths; it may raise. *)
Class DeepFace := { df_verify : image → image → string → outcome verify_result }.

(** werkzeug's [secure_filename]. *)
Class Werkzeug := { secure_filename : string → string }.

(** What the code relies on: a sanitised name has no path separator. *)
Class WerkzeugLaws `{Werkzeug} := {
  secure_noslash s : str_has "/" (secure_filename s) = false
}.

(** [uuid.uuid4().hex]: the [n]-th draw of the random source. *)
Class Uuid := { uuid4_hex : nat → string }.

(** What the code relies on: draws do not repeat (a collision of 122
    random bits is not considered) and, being hex digits, contain no
    dot, no slash and no underscore. *)
Class UuidLaws `{Uuid} := {
  uuid_inj m n : uuid4_hex m = uuid4_hex n → m = n;
  uuid_nodot n : str_has "." (uuid4_hex n) = false;
  uuid_noslash n : str_has "/" (uuid4_hex n) = false;
  uuid_nounder n : str_has "_" (uuid4_hex n) = false
}.

(** ** The world *)

Inductive fs_event :=
| EvWrite (p : string)
| EvRemove (p : string).

(** [w_files]: the files of the disk by path, with the image each holds;
    [w_dirs]: the directories that exist; [w_rng]: the number of [uuid4] draws so far; [w_quota]: how many more
    writes the disk accepts ([None]: no limit); [w_log]: the writes and
    removals so far, oldest first. *)
Record world := mkWorld {
  w_files : gmap string image;
  w_dirs : gset string;
  w_rng : nat;
  w_quota : option nat;
  w_log : list fs_event
}.

Definition written (log : list fs_event) : list string :=
  omap (λ ev, match ev with EvWrite p => Some p | EvRemove _ => None end) log.

Definition ENOSPC (p : string) : exn := mkExn "OSError" ("[Errno 28] No space left on device: " +:+ p).
Definition ENOENT (p : string) : exn := mkExn "FileNotFoundError" ("[Errno 2] No such file or directory: " +:+ p).
Definition FileExistsError (p : string) : exn := mkExn "FileExistsError" ("[Errno 17] File exists: " +:+ p).
Definition UnidentifiedImageError : exn := mkExn "UnidentifiedImageError" "cannot identify image file".

(** [os.path.join(a, b)] for a relative [b]. *)
Definition path_join (a b : string) : string := a +:+ "/" +:+ b.

(** [uuid.uuid4().hex]. *)
Definition uuid_hex `{Uuid} : M world string :=
  λ w, (Ret (uuid4_hex (w_rng w)), mkWorld (w_files w) (w_dirs w) (S (w_rng w)) (w_quota w) (w_log w)).

(** Whether the directory a path is written into exists (a path
    without ['/'] is in the working directory, which does). *)
Definition parent_ok (dirs : gset string) (p : string) : bool :=
  match split_last "/" p with
  | Some (d, _) => bool_decide (d ∈ dirs)
  | None => true
  end.

(** [img.save(p, ...)]: opening [p] for writing fails when its directory
    does not exist; a full disk raises and leaves no file (Pillow removes
    a file it created when the encoder fails); otherwise the file at [p]
    holds the JPEG of [img], replacing an older one. *)
Definition image_save `{Pillow} (p : string) (img : image) : M world unit :=
  λ w,
    if parent_ok (w_dirs w) p then
      match w_quota w with
      | Some 0 => (Raise (ENOSPC p), w)
      | q => (Ret tt, mkWorld (<[p := pil_jpeg img]> (w_files w)) (w_dirs w) (w_rng w)
                             (Nat.pred <$> q) (w_log w ++ [EvWrite p]))
      end
    else (Raise (ENOENT p), w).

(** [os.makedirs(d, exist_ok=True)] for a directory [d] of one component:
    nothing to do when it exists, an error when a file has its name. *)
Definition os_makedirs (d : string) : M world unit :=
  λ w,
    if bool_decide (d ∈ w_dirs w) then (Ret tt, w)
    else match w_files w !! d with
         | Some _ => (Raise (FileExistsError d), w)
         | None => (Ret tt, mkWorld (w_files w) ({[d]} ∪ w_dirs w) (w_rng w) (w_quota w) (w_log w))
         end.

(** [os.remove(p)]. *)
Definition os_remove (p : string) : M world unit :=
  λ w,
    match w_files w !! p with
    | None => (Raise (ENOENT p), w)
    | Some _ => (Ret tt, mkWorld (delete p (w_files w)) (w_dirs w) (w_rng w) (w_quota w) (w_log w ++ [EvRemove p]))
    end.

(** [Image.open(p).convert("RGB")] on a stored file. *)
Definition image_open_path (p : string) : M world image :=
  λ w,
    match w_files w !! p with
    | None => (Raise (ENOENT p), w)
    | Some i => (Ret i, w)
    end.

(** ** Effects of the operations *)

Section Effects.
Context `{Pillow} `{Uuid}.

Lemma image_save_unlimited p img w :
  parent_ok (w_dirs w) p = true → w_quota w = None →
  image_save p img w =
    (Ret tt, mkWorld (<[p := pil_jpeg img]> (w_files w)) (w_dirs w) (w_rng w) None
                     (w_log w ++ [EvWrite p])).
Proof. intros Hd Hq. unfold image_save. by rewrite Hd, Hq. Qed.

(** A file directly under [uploads/] can be written exactly when that
    directory exists. *)
Lemma parent_ok_upload dirs name :
  str_has "/" name = false →
  parent_ok dirs (path_join UPLOAD_FOLDER name) = bool_decide (UPLOAD_FOLDER ∈ dirs).
Proof.
  intros Hn. unfold parent_ok, path_join.
  change ("/" +:+ name) with (String "/" name). by rewrite split_last_app.
Qed.

Lemma os_remove_present p w i :
  w_files w !! p = Some i →
  os_remove p w = (Ret tt, mkWorld (delete p (w_files w)) (w_dirs w) (w_rng w) (w_quota w) (w_log w ++ [EvRemove p])).
Proof. intros Hp. unfold os_remove. by rewrite Hp. Qed.

Lemma written_app l1 l2 : written (l1 ++ l2) = written l1 ++ written l2.
Proof. apply omap_app. Qed.
End Effects.

#[export] Hint Rewrite written_app : faceapi_rw.
