(* ===== verification/Samples.v ===== *)
(** * Sample collaborators

    Small, executable instances of the library classes of [Runtime.v],
    used to run the model on concrete requests: a Pillow whose decoder
    reads an image size from the first two bytes, whose [thumbnail]
    keeps the aspect ratio, and whose [resize] refuses an empty image as
    Pillow does; an MTCNN and a DeepFace given by tables; a
    [secure_filename] that turns each slash into an underscore; and a
    [uuid4] that numbers its draws.  The samples satisfy [PillowLaws],
    [WerkzeugLaws] and [UuidLaws], so every theorem stated under those
    laws applies to them. *)

From S2P Require Import Prelude Builtins Config Runtime.
From stdpp Require Import pretty.

(** An image of the given size, every pixel of red level [c]. *)
Definition fill (w h c : Z) : image :=
  mkImage w h (replicate (Z.to_nat h) (replicate (Z.to_nat w) (c, 0, 0)%Z)).

(** A black image of the given size. *)
Definition blank (w h : Z) : image := fill w h 0.

(** The red level of the first pixel, which the sample resize sets to
    the width of the crop it was given. *)
Definition tag (i : image) : Z :=
  match im_rows i with (((r, _), _) :: _) :: _ => r | _ => 0 end.

(** The size Pillow's [thumbnail] aims at, with integer arithmetic. *)
Definition thumb_size (d w h : Z) : Z * Z :=
  if (h <=? w)%Z then (d, Z.max 1 (h * d / w)) else (Z.max 1 (w * d / h), d).

#[export] Instance sample_pillow : Pillow := {|
  pil_open bs :=
    match bs with
    | bw :: bh :: _ => Some (blank (10 * Z.of_nat (Byte.to_nat bw)) (Z.of_nat (Byte.to_nat bh)))
    | _ => None
    end;
  pil_thumbnail d i :=
    if (im_w i <=? d)%Z && (im_h i <=? d)%Z then i
    else let '(nw, nh) := thumb_size d (Z.max 1 (im_w i)) (Z.max 1 (im_h i)) in blank nw nh;
  pil_jpeg i := i;
  pil_resize d i :=
    if (im_w i <=? 0)%Z || (im_h i <=? 0)%Z then Raise (mkExn "ValueError" "empty image")
    else Ret (fill d d (im_w i))
|}.

Lemma thumb_size_fits d w h :
  (1 ≤ d)%Z → (1 ≤ w)%Z → (1 ≤ h)%Z →
  ((thumb_size d w h).1 ≤ d ∧ (thumb_size d w h).2 ≤ d)%Z.
Proof.
  intros Hd Hw Hh. unfold thumb_size.
  destruct (Z.leb_spec h w); cbn; (split; [|]); try lia;
    apply Z.max_lub; try lia; apply Z.div_le_upper_bound; nia.
Qed.

#[export] Instance sample_pillow_laws : PillowLaws.
Proof.
  split.
  - intros d i Hd. cbn.
    destruct (Z.leb_spec (im_w i) d), (Z.leb_spec (im_h i) d); cbn; try lia;
      destruct (thumb_size d _ _) as [nw nh] eqn:E; cbn;
      pose proof (thumb_size_fits d (Z.max 1 (im_w i)) (Z.max 1 (im_h i)) Hd ltac:(lia) ltac:(lia)) as Hf;
      rewrite E in Hf; exact Hf.
  - done.
  - intros d i j. cbn. destruct (_ || _); [done|]. by intros [= <-].
Qed.

(** [detector.detect_faces] given by a table from image widths. *)
Definition sample_mtcnn (faces : Z → list detection) : Mtcnn :=
  {| detect_faces i := faces (im_w i) |}.

(** [DeepFace.verify] given by a table from the tags of the two images. *)
Definition sample_deepface (res : Z → Z → outcome verify_result) : DeepFace :=
  {| df_verify a b _ := res (tag a) (tag b) |}.

(** A [secure_filename] that, like werkzeug's, leaves no path separator:
    each ['/'] becomes ['_']. *)
Fixpoint replace_slash (s : string) : string :=
  match s with
  | EmptyString => EmptyString
  | String c s' => String (if decide (c = "/"%char) then "_"%char else c) (replace_slash s')
  end.

#[export] Instance sample_werkzeug : Werkzeug := {| secure_filename := replace_slash |}.

#[export] Instance sample_werkzeug_laws : WerkzeugLaws.
Proof.
  split. intros s. cbn. induction s as [|c s IH]; [done|]. cbn.
  rewrite IH, orb_false_r. case_decide; apply bool_decide_eq_false_2; congruence.
Qed.

(** The [n]-th draw is ["f"] followed by the decimal digits of [n]. *)
#[export] Instance sample_uuid : Uuid := {| uuid4_hex n := "f" +:+ pretty (N.of_nat n) |}.

Lemma pretty_N_char_digit x : 48 ≤ nat_of_ascii (pretty_N_char x) ≤ 57.
Proof. unfold pretty_N_char. repeat case_match; split; apply Nat.leb_le; reflexivity. Qed.

(** Decimal digits contain no character outside ['0'] .. ['9'], such as
    ['.'], ['/'] or ['_']. *)
Lemma pretty_N_go_nodigit (c : ascii) x s :
  nat_of_ascii c < 48 ∨ 57 < nat_of_ascii c → str_has c s = false → str_has c (pretty_N_go x s) = false.
Proof.
  intros Hc. revert s. induction (N.lt_wf_0 x) as [x _ IH]; intros s Hs.
  destruct (decide (x = 0)%N) as [->|Hx]; [by rewrite pretty_N_go_0|].
  rewrite pretty_N_go_step by lia. apply IH; [apply N.div_lt; lia|].
  cbn. rewrite Hs, orb_false_r. apply bool_decide_eq_false_2. intros ->.
  pose proof (pretty_N_char_digit (x `mod` 10)%N). lia.
Qed.

Lemma sample_uuid_nodigit (c : ascii) n :
  nat_of_ascii c < 48 ∨ (57 < nat_of_ascii c ∧ c ≠ "f"%char) → str_has c (uuid4_hex n) = false.
Proof.
  intros Hc. cbn -[pretty]. apply orb_false_iff. split.
  - apply bool_decide_eq_false_2. intros ->. destruct Hc as [Hc|[_ Hc]]; [vm_compute in Hc; lia|done].
  - unfold pretty, pretty_N. case_decide.
    + cbn. rewrite orb_false_r. apply bool_decide_eq_false_2. intros ->. vm_compute in Hc. lia.
    + apply pretty_N_go_nodigit; [lia|done].
Qed.

(** The sample draws never repeat and have no dot, slash or underscore,
    as [UuidLaws] asks. *)
#[export] Instance sample_uuid_laws : UuidLaws.
Proof.
  split.
  - intros m n Heq. cbn -[pretty] in Heq. injection Heq as Heq.
    apply Nat2N.inj. by apply (inj pretty).
  - intros n. apply sample_uuid_nodigit. vm_compute. lia.
  - intros n. apply sample_uuid_nodigit. vm_compute. lia.
  - intros n. apply sample_uuid_nodigit. right. split; [vm_compute; lia|done].
Qed.

(** An empty disk with no limit, its [uploads] directory created. *)
Definition empty_world : world := mkWorld ∅ {[ UPLOAD_FOLDER ]} 0 None [].

Lemma empty_world_dir : UPLOAD_FOLDER ∈ w_dirs empty_world.
Proof. cbn. set_solver. Qed.
