(* ===== verification/Validator.v ===== *)
(** * The request validator

    [allowed_file] (lines 24-25 of [src/app.py]) and the field loop at
    the start of [verify] (lines 60-68): each expected field, in order,
    must be present with a non-empty file name whose extension (after the
    last dot, case-insensitively) is allowed.  The first failure decides
    the 400 answer.  Reading [request.files] makes werkzeug parse the
    body, which raises [RequestEntityTooLarge] (a 413) when the declared
    length exceeds [MAX_CONTENT_LENGTH] (line 19).

    The theorems: [allowed_file] never raises and accepts exactly the
    names [stem.ext] with [ext] dot-free and allowed once lowered; the
    loop answers with the first failing field in [expected] order and
    otherwise hands on the five uploads in that order. *)

From S2P Require Import Prelude Builtins Config Runtime.
Local Set Warnings "-clear-no-such-hyp".

(** ** Definitions *)

(** [allowed_file(filename)]. *)
Definition allowed_file (filename : string) : outcome bool :=
  if str_has "." filename then
    ext ← py_index (py_rsplit1 "." filename) 1;
    mret (bool_decide (str_lower ext ∈ ALLOWED_EXT))
  else mret false.

Definition RequestEntityTooLarge : exn :=
  mkExn "RequestEntityTooLarge" "413 Request Entity Too Large".

(** [request.files]: parsing the body fails on an oversized request. *)
Definition request_files (req : request) : outcome (list (string * upload)) :=
  if (MAX_CONTENT_LENGTH <? req_content_length req)%Z then Raise RequestEntityTooLarge
  else Ret (req_files req).

(** [if not f]: a [FileStorage] is false when its file name is empty. *)
Definition upload_falsy (f : option upload) : bool :=
  match f with None => true | Some u => bool_decide (filename u = "") end.

Definition missing_field (key : string) : response :=
  RespError 400 ("Missing file field: " +:+ key).

Definition invalid_field (key : string) : response :=
  RespError 400 ("Invalid file type for field: " +:+ key).

(** [for key in expected: ...; files[key] = f]: an early [return] is
    [inl], the finished loop hands on [files] as [inr]. *)
Fixpoint validate_loop (req : request) (keys : list string) (files : list (string * upload)) :
    outcome (response + list (string * upload)) :=
  match keys with
  | [] => mret (inr files)
  | key :: keys' =>
      rf ← request_files req;
      let f := dict_get key rf in
      if upload_falsy f then mret (inl (missing_field key))
      else match f with
           | None => mret (inl (missing_field key))
           | Some u =>
               ok ← allowed_file (filename u);
               if negb ok then mret (inl (invalid_field key))
               else validate_loop req keys' (dict_set key u files)
           end
  end.

Definition validate (req : request) : outcome (response + list (string * upload)) :=
  validate_loop req expected [].

(** ** The contract of a field *)

(** The extension rule [allowed_file] decides, stated on the name. *)
Definition ext_allowed (name : string) : Prop :=
  ∃ stem ext, name = stem +:+ String "." ext ∧ str_has "." ext = false ∧
              str_lower ext ∈ ALLOWED_EXT.

(** What the loop finds at one field of an in-size request. *)
Inductive field_status := FMissing | FInvalid | FOk (u : upload).

Definition field_check (req : request) (key : string) : field_status :=
  match dict_get key (req_files req) with
  | None => FMissing
  | Some u =>
      if bool_decide (filename u = "") then FMissing
      else match allowed_file (filename u) with
           | Ret true => FOk u
           | _ => FInvalid
           end
  end.

Definition field_ok (req : request) (key : string) : Prop :=
  ∃ u, field_check req key = FOk u.

(** ** The declarative specification

    What the field loop is meant to compute, stated without its
    [files] dict: the first field of [expected] that fails decides the
    answer; when none fails, the uploads of the fields in [expected]
    order. *)
Fixpoint first_failure (req : request) (keys : list string) : option response :=
  match keys with
  | [] => None
  | k :: ks =>
      match field_check req k with
      | FMissing => Some (missing_field k)
      | FInvalid => Some (invalid_field k)
      | FOk _ => first_failure req ks
      end
  end.

Definition field_upload (req : request) (key : string) : option upload :=
  match field_check req key with FOk u => Some u | _ => None end.

Definition validate_spec (req : request) : outcome (response + list (string * upload)) :=
  if (MAX_CONTENT_LENGTH <? req_content_length req)%Z then Raise RequestEntityTooLarge
  else match first_failure req expected with
       | Some r => Ret (inl r)
       | None => Ret (inr (omap (λ k, pair k <$> field_upload req k) expected))
       end.

(** ** Lemmas *)

Lemma allowed_file_Ret name :
  allowed_file name =
  Ret (match split_last "." name with
       | Some (_, ext) => bool_decide (str_lower ext ∈ ALLOWED_EXT)
       | None => false
       end).
Proof.
  unfold allowed_file, py_rsplit1.
  destruct (split_last "." name) as [[a b]|] eqn:E.
  - apply split_last_Some in E as [-> _].
    assert (str_has "." (a +:+ String "." b) = true) as ->.
    { induction a as [|c a IH]; simpl; [reflexivity|by rewrite IH, orb_true_r]. }
    reflexivity.
  - apply split_last_None in E. by rewrite E.
Qed.

Lemma request_files_small req :
  (req_content_length req ≤ MAX_CONTENT_LENGTH)%Z → request_files req = Ret (req_files req).
Proof. intros H. unfold request_files. destruct (Z.ltb_spec MAX_CONTENT_LENGTH (req_content_length req)); [lia|done]. Qed.

(** One step of the loop, read through [field_check]. *)
Lemma validate_loop_cons req key keys files :
  (req_content_length req ≤ MAX_CONTENT_LENGTH)%Z →
  validate_loop req (key :: keys) files =
  match field_check req key with
  | FMissing => Ret (inl (missing_field key))
  | FInvalid => Ret (inl (invalid_field key))
  | FOk u => validate_loop req keys (dict_set key u files)
  end.
Proof.
  intros Hs. cbn [validate_loop]. rewrite request_files_small by done.
  unfold field_check, upload_falsy. cbn [mbind outcome_bind].
  destruct (dict_get key (req_files req)) as [u|]; [|done].
  case_bool_decide; [done|].
  destruct (allowed_file (filename u)) as [[|]|e] eqn:E; [done|done|].
  by rewrite allowed_file_Ret in E.
Qed.

Lemma dict_set_fresh {K V} `{EqDecision K} (k : K) (v : V) (d : list (K * V)) :
  k ∉ d.*1 → dict_set k v d = d ++ [(k, v)].
Proof.
  induction d as [|[k' v'] d IH]; intros Hk; [done|]. cbn in *.
  rewrite decide_False by set_solver. rewrite IH; set_solver.
Qed.

(** A field that fails, with the answer the loop gives for it. *)
Definition field_failure (req : request) (key : string) (r : response) : Prop :=
  (field_check req key = FMissing ∧ r = missing_field key) ∨
  (field_check req key = FInvalid ∧ r = invalid_field key).

Lemma field_ok_not_failure req key r : field_ok req key → ¬ field_failure req key r.
Proof. intros [u Hu] [[H _]|[H _]]; congruence. Qed.

Lemma validate_loop_inl req keys files r :
  (req_content_length req ≤ MAX_CONTENT_LENGTH)%Z →
  validate_loop req keys files = Ret (inl r) ↔
  ∃ pre key post, keys = pre ++ key :: post ∧ Forall (field_ok req) pre ∧ field_failure req key r.
Proof.
  intros Hs. revert files. induction keys as [|k keys IH]; intros files.
  - split; [done|]. intros (pre & key & post & Hk & _). by destruct pre.
  - rewrite validate_loop_cons by done. unfold field_failure.
    destruct (field_check req k) as [| |u] eqn:E.
    + split.
      * intros [= <-]. exists [], k, keys. naive_solver.
      * intros ([|p pre] & key & post & [= -> ->] & Hpre & Hf).
        { destruct Hf as [[_ ->]|[H _]]; [done|congruence]. }
        apply Forall_cons in Hpre as [[u' Hu'] _]. congruence.
    + split.
      * intros [= <-]. exists [], k, keys. naive_solver.
      * intros ([|p pre] & key & post & [= -> ->] & Hpre & Hf).
        { destruct Hf as [[H _]|[_ ->]]; [congruence|done]. }
        apply Forall_cons in Hpre as [[u' Hu'] _]. congruence.
    + rewrite IH. split.
      * intros (pre & key & post & -> & Hpre & Hf).
        exists (k :: pre), key, post. split; [done|]. split; [|done].
        constructor; [by exists u|done].
      * intros ([|p pre] & key & post & [= -> Hk] & Hpre & Hf).
        { subst. destruct Hf as [[H _]|[H _]]; congruence. }
        apply Forall_cons in Hpre as [_ Hpre]. eauto 10.
Qed.

Lemma validate_loop_inr req keys files files' :
  (req_content_length req ≤ MAX_CONTENT_LENGTH)%Z →
  NoDup keys → (∀ k, k ∈ keys → k ∉ files.*1) →
  validate_loop req keys files = Ret (inr files') →
  Forall (field_ok req) keys ∧ files'.*1 = files.*1 ++ keys ∧
  ∀ k u, (k, u) ∈ files' → (k, u) ∈ files ∨ field_check req k = FOk u.
Proof.
  intros Hs. revert files. induction keys as [|k keys IH]; intros files Hnd Hfresh.
  - intros [= <-]. rewrite app_nil_r. naive_solver.
  - rewrite validate_loop_cons by done. destruct (field_check req k) as [| |u] eqn:E; [done|done|].
    apply NoDup_cons in Hnd as [Hk Hnd].
    rewrite dict_set_fresh by set_solver.
    intros (Hall & Hdom & Hin)%IH; [| done |].
    + split; [constructor; [by exists u|done]|]. split.
      * rewrite Hdom, fmap_app, <- app_assoc. done.
      * intros k' u' [Hm|Hc]%Hin; [|by right].
        apply elem_of_app in Hm as [Hm|Hm]; [by left|].
        apply list_elem_of_singleton in Hm. injection Hm as -> ->. by right.
    + intros k' Hk'. rewrite fmap_app. cbn. rewrite elem_of_app, list_elem_of_singleton.
      intros [Hf| ->]; [apply (Hfresh k'); set_solver|set_solver].
Qed.

(** Validation that does not raise saw a request within the limit. *)
Lemma validate_Ret_small req v :
  validate req = Ret v → (req_content_length req ≤ MAX_CONTENT_LENGTH)%Z.
Proof.
  unfold validate, validate_loop, expected, request_files.
  destruct (Z.ltb_spec MAX_CONTENT_LENGTH (req_content_length req)); [done|lia].
Qed.

Lemma validate_inr_files req files :
  validate req = Ret (inr files) →
  Forall (field_ok req) expected ∧ files.*1 = expected ∧
  ∀ k u, (k, u) ∈ files → field_check req k = FOk u.
Proof.
  intros Hv. pose proof (validate_Ret_small req _ Hv) as Hs.
  apply validate_loop_inr in Hv as (Hall & Hdom & Hin); [| done | | set_solver].
  - split; [done|]. split; [done|]. intros k u [H|H]%Hin; [set_solver|done].
  - repeat constructor; set_solver.
Qed.

(** An early return of the loop is one of its two 400 answers. *)
Lemma validate_inl_error req r :
  validate req = Ret (inl r) → ∃ key, r = missing_field key ∨ r = invalid_field key.
Proof.
  intros Hv. pose proof (validate_Ret_small req _ Hv) as Hs.
  apply validate_loop_inl in Hv as (_ & key & _ & _ & _ & [[_ ->]|[_ ->]]); eauto.
Qed.

(** The loop from any point on computes the specification, the fields
    still to check being fresh in [files]. *)
Lemma validate_loop_spec req keys files :
  (req_content_length req ≤ MAX_CONTENT_LENGTH)%Z →
  NoDup keys → (∀ k, k ∈ keys → k ∉ files.*1) →
  validate_loop req keys files =
    match first_failure req keys with
    | Some r => Ret (inl r)
    | None => Ret (inr (files ++ omap (λ k, pair k <$> field_upload req k) keys))
    end.
Proof.
  intros Hs. revert files. induction keys as [|k keys IH]; intros files Hnd Hfresh.
  - by rewrite app_nil_r.
  - rewrite validate_loop_cons by done. cbn [first_failure].
    destruct (field_check req k) as [| |u] eqn:E; [done|done|].
    assert (omap (λ k, pair k <$> field_upload req k) (k :: keys) =
            (k, u) :: omap (λ k, pair k <$> field_upload req k) keys) as ->
      by (cbn; unfold field_upload at 1; by rewrite E).
    apply NoDup_cons in Hnd as [Hk Hnd]. rewrite dict_set_fresh by set_solver.
    rewrite IH; [|done|].
    + destruct (first_failure req keys); [done|]. by rewrite <- app_assoc.
    + intros k' Hk'. rewrite fmap_app. cbn. rewrite elem_of_app, list_elem_of_singleton.
      intros [Hf| ->]; [apply (Hfresh k'); set_solver|set_solver].
Qed.

(** ** Theorems *)

(** C20: [allowed_file] never raises, and it accepts a file name exactly
    when the name has a dot and the text after its last dot, lowered, is
    one of png, jpg, jpeg, webp. *)
Theorem allowed_file_correct (name : string) :
  ∃ b, allowed_file name = Ret b ∧ (b = true ↔ ext_allowed name).
Proof.
  rewrite allowed_file_Ret. eexists; split; [reflexivity|].
  destruct (split_last "." name) as [[stem ext]|] eqn:E; split.
  - intros Hb%bool_decide_eq_true_1. apply split_last_Some in E as [-> Hd]. by exists stem, ext.
  - intros (stem' & ext' & -> & Hd & Hin).
    rewrite split_last_app in E by done. injection E as <- <-. by apply bool_decide_eq_true_2.
  - done.
  - intros (stem' & ext' & -> & Hd & Hin). by rewrite split_last_app in E.
Qed.

(** C3: on a request within the size limit, validation rejects with [r]
    exactly when some field of [expected] fails (absent, empty file name,
    or a disallowed extension), every field before it passes, and [r]
    names that field with the message of its failure. *)
Theorem validate_rejects_first_failure (req : request) (r : response) :
  (req_content_length req ≤ MAX_CONTENT_LENGTH)%Z →
  validate req = Ret (inl r) ↔
  ∃ pre key post, expected = pre ++ key :: post ∧ Forall (field_ok req) pre ∧
                  field_failure req key r.
Proof. intros Hs. by apply validate_loop_inl. Qed.

(** C4: when validation passes, every expected field holds an accepted
    upload and [files] lists them in the order of [expected]
    (selfie, img1, ..., img4), each with the upload its field carries. *)
Theorem validate_accepts (req : request) (files : list (string * upload)) :
  validate req = Ret (inr files) →
  Forall (field_ok req) expected ∧ files.*1 = expected ∧
  ∀ k u, (k, u) ∈ files → field_check req k = FOk u.
Proof. apply validate_inr_files. Qed.

(** An oversized request never reaches the field checks: reading
    [request.files] raises [RequestEntityTooLarge]. *)
Lemma validate_too_large (req : request) :
  (MAX_CONTENT_LENGTH < req_content_length req)%Z →
  validate req = Raise RequestEntityTooLarge.
Proof.
  intros H. unfold validate, validate_loop, expected, request_files.
  destruct (Z.ltb_spec MAX_CONTENT_LENGTH (req_content_length req)); [done|lia].
Qed.

(** ** Concrete requests *)

Definition sample_upload (name : string) : upload := mkUpload name [].

(** Every field present with an accepted name. *)
Definition request_ok : request :=
  mkRequest "POST" "/verify" 1000
    [("selfie", sample_upload "me.JPG"); ("img1", sample_upload "a.png");
     ("img2", sample_upload "b.jpeg"); ("img3", sample_upload "c.webp");
     ("img4", sample_upload "d.jpg")].

(** img3 is absent, but the selfie's extension is refused first. *)
Definition request_gif_selfie_no_img3 : request :=
  mkRequest "POST" "/verify" 1000
    [("selfie", sample_upload "me.gif"); ("img1", sample_upload "a.png");
     ("img2", sample_upload "b.png"); ("img4", sample_upload "d.png")].

(** Witness of C3: the request without img3 is answered with the
    selfie's invalid type, the first failure in [expected] order. *)
Lemma validate_rejects_first_failure_witness :
  validate request_gif_selfie_no_img3 = Ret (inl (invalid_field "selfie")).
Proof.
  apply (proj2 (validate_rejects_first_failure request_gif_selfie_no_img3 _ ltac:(vm_compute; discriminate))).
  exists [], "selfie", ["img1"; "img2"; "img3"; "img4"].
  split; [reflexivity|]. split; [constructor|]. right. split; vm_compute; reflexivity.
Defined.

(** Witness of C4, on a request with all five fields. *)
Lemma validate_accepts_witness :
  Forall (field_ok request_ok) expected ∧ (req_files request_ok).*1 = expected.
Proof.
  destruct (validate_accepts request_ok (req_files request_ok)
              ltac:(vm_compute; reflexivity)) as (H1 & H2 & _).
  split; [exact H1|exact H2].
Defined.

(** C13: the field loop of [verify], with its [files] dict filled in
    place, computes its declarative specification [validate_spec] on
    every request: the same exception, the same early answer, the same
    uploads in the same order. *)
Theorem validate_refines_spec (req : request) : validate req = validate_spec req.
Proof.
  unfold validate_spec. destruct (Z.ltb_spec MAX_CONTENT_LENGTH (req_content_length req)).
  - by apply validate_too_large.
  - unfold validate. rewrite validate_loop_spec; [done|lia| |set_solver].
    repeat constructor; set_solver.
Qed.
