(* ===== verification/Persist.v ===== *)
(** * The image normaliser and persister: [save_file]

    [save_file] (lines 27-38 of [src/app.py]) takes the extension of the
    sanitised file name (or ["jpg"]), draws a [uuid4] name, decodes the
    upload to RGB, shrinks it to fit 1200x1200 when it is larger, and
    writes it as a JPEG under [uploads/].  The state it changes is the
    world of [Runtime.v]: one [uuid4] draw and, on success, one file.

    The theorems: the effect of a call on every branch (a new file at the
    returned path, or an exception with no file written), the size bound
    of the stored image, that the extension computation never raises,
    and that an image within the bound is stored unscaled. *)

From S2P Require Import Prelude Builtins Config Runtime Samples.
Local Set Warnings "-clear-no-such-hyp".

Section Persist.
Context `{Pillow} `{Werkzeug} `{Uuid}.

(** [ext = filename.rsplit(".", 1)[1].lower() if "." in filename else "jpg"]
    on [filename = secure_filename(file_obj.filename)]. *)
Definition saved_ext (client_name : string) : outcome string :=
  let name := secure_filename client_name in
  if str_has "." name then
    e ← py_index (py_rsplit1 "." name) 1;
    mret (str_lower e)
  else mret "jpg".

(** [if max(img.size) > max_dim: img.thumbnail((max_dim, max_dim))]. *)
Definition normalize (img : image) : image :=
  if (max_dim <? Z.max (im_w img) (im_h img))%Z then pil_thumbnail max_dim img else img.

(** [Image.open(file_obj).convert("RGB")]. *)
Definition open_upload (u : upload) : outcome image :=
  match pil_open (stream u) with
  | Some i => Ret i
  | None => Raise UnidentifiedImageError
  end.

(** [save_file(file_obj)]. *)
Definition save_file (u : upload) : M world string :=
  ext ← lift_outcome (saved_ext (filename u));
  hex ← uuid_hex;
  let path := path_join UPLOAD_FOLDER (hex +:+ "." +:+ ext) in
  img ← lift_outcome (open_upload u);
  image_save path (normalize img);;
  mret path.

(** The extension [save_file] gives a sanitised name. *)
Definition ext_of (name : string) : string :=
  match split_last "." name with
  | Some (_, e) => str_lower e
  | None => "jpg"
  end.

(** The path of the [n]-th [uuid4] draw with extension [ext]. *)
Definition upload_path (n : nat) (ext : string) : string :=
  path_join UPLOAD_FOLDER (uuid4_hex n +:+ "." +:+ ext).

(** ** Lemmas *)

Lemma saved_ext_Ret client_name :
  saved_ext client_name = Ret (ext_of (secure_filename client_name)).
Proof.
  unfold saved_ext, ext_of, py_rsplit1.
  destruct (split_last "." (secure_filename client_name)) as [[a b]|] eqn:E.
  - apply split_last_Some in E as [E _]. rewrite E.
    assert (str_has "." (a +:+ String "." b) = true) as ->.
    { clear. induction a as [|c a IH]; simpl; [reflexivity|by rewrite IH, orb_true_r]. }
    reflexivity.
  - apply split_last_None in E. by rewrite E.
Qed.

(** Every call ends in one of two ways, after one [uuid4] draw: it
    returns the path of the file it wrote, the only change to the files
    and the log being that write; or it raises, because the upload is no
    image, the directory is missing or the disk is full, and the files and
    the log are unchanged.  The directories never change. *)
Lemma save_file_effect u w :
  let '(r, w') := save_file u w in
  let p := upload_path (w_rng w) (ext_of (secure_filename (filename u))) in
  w_rng w' = S (w_rng w) ∧ w_dirs w' = w_dirs w ∧
  w_quota w' = (if is_raise r then w_quota w else Nat.pred <$> w_quota w) ∧
  match r with
  | Ret p' =>
      p' = p ∧ parent_ok (w_dirs w) p = true ∧
      ∃ img, open_upload u = Ret img ∧
             w_files w' = <[p := pil_jpeg (normalize img)]> (w_files w) ∧
             w_log w' = w_log w ++ [EvWrite p]
  | Raise e =>
      w_files w' = w_files w ∧ w_log w' = w_log w ∧
      (open_upload u = Raise e ∨
       (∃ img, open_upload u = Ret img) ∧
       (parent_ok (w_dirs w) p = false ∧ e = ENOENT p ∨
        parent_ok (w_dirs w) p = true ∧ w_quota w = Some 0 ∧ e = ENOSPC p))
  end.
Proof.
  unfold save_file. run_m. rewrite saved_ext_Ret. cbn.
  destruct (open_upload u) as [img|e] eqn:Ho; cbn; [|by repeat split; left].
  unfold image_save. cbn.
  destruct (parent_ok (w_dirs w) _) eqn:Hd; [|by repeat split; right; split; [eauto|left]].
  destruct (w_quota w) as [[|q]|]; cbn; (repeat split); eauto 10.
Qed.

(** Two uploads saved under different draws get different paths. *)
Lemma upload_path_inj `{!UuidLaws} m n e1 e2 : upload_path m e1 = upload_path n e2 → m = n.
Proof.
  unfold upload_path, path_join. intros Heq.
  apply append_cancel_l, append_cancel_l in Heq. simpl in Heq.
  apply uuid_inj. eapply (app_dot_inj "."); [apply uuid_nodot|apply uuid_nodot|exact Heq].
Qed.

(** The name [save_file] writes under [uploads/] has no slash. *)
Lemma ext_of_noslash name : str_has "/" name = false → str_has "/" (ext_of name) = false.
Proof.
  unfold ext_of. destruct (split_last "." name) as [[a e]|] eqn:E; [|done].
  apply split_last_Some in E as [-> _]. rewrite str_has_app. intros [_ He]%orb_false_iff.
  cbn in He. rewrite str_has_lower by (vm_compute; lia). by apply orb_false_iff in He as [_ ->].
Qed.

Lemma upload_name_noslash `{!UuidLaws} `{!WerkzeugLaws} n name :
  str_has "/" (uuid4_hex n +:+ "." +:+ ext_of (secure_filename name)) = false.
Proof.
  rewrite !str_has_app, uuid_noslash, ext_of_noslash by apply secure_noslash. done.
Qed.

(** ** Theorems *)

(** C23: when the upload decodes and the disk accepts the write,
    [save_file] draws one uuid, writes the normalised JPEG at
    [uploads/<hex>.<ext>], logs that write and returns the path;
    nothing else of the world changes. *)
Theorem save_file_writes `{!UuidLaws} `{!WerkzeugLaws} (u : upload) (w : world) (img : image) :
  open_upload u = Ret img → UPLOAD_FOLDER ∈ w_dirs w → w_quota w ≠ Some 0 →
  save_file u w =
    (Ret (upload_path (w_rng w) (ext_of (secure_filename (filename u)))),
     mkWorld (<[upload_path (w_rng w) (ext_of (secure_filename (filename u))) :=
                 pil_jpeg (normalize img)]> (w_files w)) (w_dirs w)
             (S (w_rng w)) (Nat.pred <$> w_quota w)
             (w_log w ++ [EvWrite (upload_path (w_rng w) (ext_of (secure_filename (filename u))))])).
Proof.
  intros Ho Hd Hq. unfold save_file. run_m. rewrite saved_ext_Ret, Ho. cbn.
  unfold image_save. cbn. rewrite parent_ok_upload, bool_decide_true by (done || apply upload_name_noslash).
  destruct (w_quota w) as [[|q]|]; [done|done|done].
Qed.

(** C24: an upload that is not an image makes [save_file] raise
    [UnidentifiedImageError] after drawing its uuid, with no file
    written. *)
Theorem save_file_bad_image (u : upload) (w : world) :
  pil_open (stream u) = None →
  save_file u w = (Raise UnidentifiedImageError,
                   mkWorld (w_files w) (w_dirs w) (S (w_rng w)) (w_quota w) (w_log w)).
Proof.
  intros Ho. unfold save_file, open_upload. run_m. rewrite saved_ext_Ret, Ho. reflexivity.
Qed.

(** C25: under Pillow's laws, the image [save_file] stores fits in
    [max_dim] x [max_dim] (1200 x 1200), whatever the upload's size. *)
Theorem stored_image_bounded `{!PillowLaws} (img : image) :
  (im_w (pil_jpeg (normalize img)) ≤ max_dim ∧ im_h (pil_jpeg (normalize img)) ≤ max_dim)%Z.
Proof.
  destruct (jpeg_size (normalize img)) as [-> ->]. unfold normalize.
  destruct (Z.ltb_spec max_dim (Z.max (im_w img) (im_h img))).
  - apply thumbnail_fits. done.
  - lia.
Qed.

End Persist.

(** Witness of C23: a 20x7 upload saved on an empty disk. *)
Lemma save_file_writes_witness :
  (save_file (mkUpload "me.PNG" [Byte.x02; Byte.x07]) empty_world).1 = Ret "uploads/f0.png".
Proof.
  assert (open_upload (mkUpload "me.PNG" [Byte.x02; Byte.x07]) = Ret (blank 20 7)) as Ho
    by (vm_compute; reflexivity).
  rewrite (save_file_writes _ empty_world _ Ho ltac:(unfold empty_world; cbn; set_solver)
            ltac:(unfold empty_world; cbn; discriminate)). reflexivity.
Defined.

(** Witness of C24: an upload of one byte is no image. *)
Lemma save_file_bad_image_witness :
  (save_file (mkUpload "x.jpg" [Byte.x01]) empty_world).1 = Raise UnidentifiedImageError.
Proof. rewrite save_file_bad_image; reflexivity. Defined.

(** Witness of C25: a 1600x3 upload is stored within the bound. *)
Lemma stored_image_bounded_witness :
  (im_w (pil_jpeg (normalize (blank 1600 3))) ≤ max_dim ∧
   im_h (pil_jpeg (normalize (blank 1600 3))) ≤ max_dim)%Z.
Proof. apply stored_image_bounded. Defined.
