(* ===== verification/Localizer.v ===== *)
(** * The face localiser: [crop_face]

    [crop_face] (lines 40-51 of [src/app.py]) reads a stored image, asks
    MTCNN for its faces, returns [None] when there is none, and otherwise
    keeps the detection of largest box area ([max] with a key: the first
    one on ties), clips the box's corner to non-negative coordinates,
    slices the pixel array [img[y:y+h, x:x+w]] with numpy's clamping
    rules and resizes the crop to 112x112.  It reads the disk and changes
    nothing.

    The theorems: on an image with detections, [crop_face] answers the
    resize of the crop of the first box of greatest [w * h] (the fold
    CPython's [max] runs keeps the first maximum); the crop stays within
    the image and the box's size and keeps the array rectangular; a box
    sticking out to the left gives a crop wider than the box's part
    inside the image; the world is unchanged and a returned face is
    112x112. *)

From S2P Require Import Prelude Builtins Config Runtime Samples.
Local Set Warnings "-clear-no-such-hyp".

(** ** The numpy slice of an image *)

(** [img[y0:y1, x0:x1]] on an array of shape [(im_h, im_w, 3)]. *)
Definition crop_array (img : image) (y0 y1 x0 x1 : Z) : image :=
  let ya := slice_bound (im_h img) y0 in
  let yb := slice_bound (im_h img) y1 in
  let xa := slice_bound (im_w img) x0 in
  let xb := slice_bound (im_w img) x1 in
  mkImage (Z.max 0 (xb - xa)) (Z.max 0 (yb - ya))
          (map (λ r, py_slice r x0 x1) (py_slice (im_rows img) y0 y1)).

(** [d['box'][2] * d['box'][3]]. *)
Definition box_area (d : detection) : Z := box_w d * box_h d.

Section Localizer.
Context `{Pillow} `{Mtcnn}.

(** The crop of one detection: [x, y = max(0, x), max(0, y)] and
    [img[y:y+h, x:x+w]]. *)
Definition crop_box (img : image) (d : detection) : image :=
  let x := Z.max 0 (box_x d) in
  let y := Z.max 0 (box_y d) in
  crop_array img y (y + box_h d) x (x + box_w d).

(** [crop_face(img_path)]. *)
Definition crop_face (img_path : string) : M world (option image) :=
  img ← image_open_path img_path;
  let detections := detect_faces img in
  match detections with
  | [] => mret None
  | _ :: _ =>
      largest ← lift_outcome (py_max_by box_area detections);
      face ← lift_outcome (pil_resize face_size (crop_box img largest));
      mret (Some face)
  end.

End Localizer.

(** ** Lemmas *)

(** The fold of [max_step]: it keeps the start when nothing beats it,
    otherwise it ends on the first item of greatest key, which beats the
    start. *)
Lemma foldl_max_step_first {A} (key : A → Z) (l : list A) (x0 r : A) :
  foldl (max_step key) x0 l = r →
  (r = x0 ∧ ∀ y, y ∈ l → (key y ≤ key x0)%Z) ∨
  (∃ i, l !! i = Some r ∧ (key x0 < key r)%Z ∧ (∀ y, y ∈ l → (key y ≤ key r)%Z) ∧
        ∀ j y, j < i → l !! j = Some y → (key y < key r)%Z).
Proof.
  revert x0. induction l as [|x l IH]; intros x0 Hr; cbn [foldl] in Hr.
  - left. split; [done|]. intros y Hy. inversion Hy.
  - destruct (max_step_cases key x0 x) as [[Hm Hlt]|[Hm Hle]]; rewrite Hm in Hr;
      destruct (IH _ Hr) as [[-> Hall]|(i & Hi & Hgt & Hall & Hfirst)].
    + right. exists 0. split; [done|]. split; [done|]. split; [|lia].
      intros y [->|Hy]%elem_of_cons; [lia|auto].
    + right. exists (S i). split; [done|]. split; [lia|]. split.
      * intros y [->|Hy]%elem_of_cons; [lia|auto].
      * intros [|j] y Hj Hy; [injection Hy as <-; lia|]. apply (Hfirst j); [lia|done].
    + left. split; [done|]. intros y [->|Hy]%elem_of_cons; [lia|auto].
    + right. exists (S i). split; [done|]. split; [lia|]. split.
      * intros y [->|Hy]%elem_of_cons; [lia|auto].
      * intros [|j] y Hj Hy; [injection Hy as <-; lia|]. apply (Hfirst j); [lia|done].
Qed.

Lemma slice_bound_clip n b : (0 ≤ n)%Z → (0 ≤ b)%Z → slice_bound n b = Z.min b n.
Proof. intros _ Hb. by apply slice_bound_nonneg. Qed.

(** The rows of a crop of a well-formed image have the crop's width. *)
Lemma crop_array_wf img y0 y1 x0 x1 :
  image_wf img → image_wf (crop_array img y0 y1 x0 x1).
Proof.
  intros (Hw & Hh & Hrows & Hcols). unfold crop_array, image_wf; cbn.
  split; [lia|]. split; [lia|]. split.
  - rewrite length_map, length_py_slice, Hrows, Z2Nat.id by done.
    pose proof (slice_bound_range (im_h img) y0 Hh).
    pose proof (slice_bound_range (im_h img) y1 Hh). lia.
  - apply Forall_forall. intros r' (r & -> & Hr)%list_elem_of_fmap.
    rewrite length_py_slice.
    assert (length r = Z.to_nat (im_w img)) as ->.
    { rewrite Forall_forall in Hcols. apply Hcols. by eapply elem_of_py_slice. }
    rewrite Z2Nat.id by done.
    pose proof (slice_bound_range (im_w img) x0 Hw).
    pose proof (slice_bound_range (im_w img) x1 Hw). lia.
Qed.

(** [max(detections, key=area)] never raises on a non-empty list and
    picks the first detection of greatest area. *)
Lemma largest_face_first_max (d0 : detection) (ds : list detection) :
  ∃ i d, py_max_by box_area (d0 :: ds) = Ret d ∧ (d0 :: ds) !! i = Some d ∧
         (∀ y, y ∈ d0 :: ds → (box_area y ≤ box_area d)%Z) ∧
         (∀ j y, j < i → (d0 :: ds) !! j = Some y → (box_area y < box_area d)%Z).
Proof.
  destruct (foldl_max_step_first box_area ds d0 _ eq_refl)
    as [[Hr Hall]|(i & Hi & Hgt & Hall & Hfirst)].
  - exists 0, d0. cbn. rewrite Hr. split; [done|]. split; [done|]. split; [|lia].
    intros y [->|Hy]%elem_of_cons; [lia|auto].
  - exists (S i), (foldl (max_step box_area) d0 ds). split; [done|]. split; [done|]. split.
    + intros y [->|Hy]%elem_of_cons; [lia|auto].
    + intros [|j] y Hj Hy; [injection Hy as <-; lia|]. apply (Hfirst j); [lia|done].
Qed.

Section CropFace.
Context `{Pillow} `{Mtcnn}.

(** [crop_face] reads the disk and changes nothing. *)
Lemma crop_face_world p w : (crop_face p w).2 = w.
Proof.
  unfold crop_face, image_open_path. run_m.
  destruct (w_files w !! p) as [img|]; [|done]. cbn.
  destruct (detect_faces img) as [|d ds]; [done|]. cbn.
  destruct (pil_resize face_size _); done.
Qed.

(** ** Theorems *)

(** C22: [crop_face] never changes the world, and a face it returns is
    a [face_size] x [face_size] (112 x 112) image under Pillow's laws. *)
Theorem crop_face_spec `{!PillowLaws} (p : string) (w : world) :
  (crop_face p w).2 = w ∧
  ∀ f, (crop_face p w).1 = Ret (Some f) → im_w f = face_size ∧ im_h f = face_size.
Proof.
  split; [apply crop_face_world|]. intros f.
  unfold crop_face, image_open_path. run_m.
  destruct (w_files w !! p) as [img|]; [|done]. cbn.
  destruct (detect_faces img) as [|d ds]; [done|]. cbn.
  destruct (pil_resize face_size _) as [j|e] eqn:E; [|done].
  intros [= ->]. by eapply resize_size.
Qed.

(** A stored image in which MTCNN finds no face gives [None]. *)
Lemma crop_face_no_face (p : string) (w : world) (img : image) :
  w_files w !! p = Some img → detect_faces img = [] → crop_face p w = (Ret None, w).
Proof. intros Hp Hd. unfold crop_face, image_open_path. run_m. by rewrite Hp, Hd. Qed.

(** C21: on a stored image in which MTCNN reports at least one box,
    [crop_face] changes nothing and answers the resize to 112 x 112 of
    the crop of the first box of greatest [w * h]: no box has a greater
    product of its width and height, and every box before it a strictly
    smaller one.  A resize that raises makes [crop_face] raise. *)
Theorem crop_face_largest (p : string) (w : world) (img : image) (dets : list detection) :
  w_files w !! p = Some img → detect_faces img = dets → dets ≠ [] →
  ∃ i d, dets !! i = Some d ∧
    (∀ y, y ∈ dets → (box_w y * box_h y ≤ box_w d * box_h d)%Z) ∧
    (∀ j y, j < i → dets !! j = Some y → (box_w y * box_h y < box_w d * box_h d)%Z) ∧
    crop_face p w = (f ← pil_resize face_size (crop_box img d); Ret (Some f), w).
Proof.
  intros Hp Hd Hne. destruct dets as [|d0 ds]; [done|].
  destruct (largest_face_first_max d0 ds) as (i & d & Hmax & Hi & Hall & Hfirst).
  exists i, d. split; [done|]. split; [exact Hall|]. split; [exact Hfirst|].
  cbn in Hmax. injection Hmax as <-.
  unfold crop_face, image_open_path. run_m. rewrite Hp. cbn. rewrite Hd. cbn.
  by destruct (pil_resize face_size _).
Qed.

End CropFace.



(** C26: for a box of non-negative size, the crop of a well-formed image
    is a well-formed array no wider than the box or the image and no
    taller than the box or the image. *)
Theorem crop_box_within (img : image) (d : detection) :
  image_wf img → (0 ≤ box_w d)%Z → (0 ≤ box_h d)%Z →
  image_wf (crop_box img d) ∧
  (im_w (crop_box img d) ≤ box_w d ∧ im_w (crop_box img d) ≤ im_w img)%Z ∧
  (im_h (crop_box img d) ≤ box_h d ∧ im_h (crop_box img d) ≤ im_h img)%Z.
Proof.
  intros Hwf Hw Hh. split; [apply crop_array_wf, Hwf|].
  destruct Hwf as (HW & HH & _). unfold crop_box, crop_array; cbn.
  rewrite !slice_bound_nonneg by lia. lia.
Qed.

(** C27: clipping moves the corner of a box that sticks out to the left
    without shortening it: for [x < 0] and a box no wider than the image
    the crop is [w] columns wide, more than the [max 0 (x + w)] columns
    of the box that lie inside the image. *)
Theorem crop_left_overhang (img : image) (d : detection) :
  (box_x d < 0)%Z → (0 < box_w d ≤ im_w img)%Z →
  im_w (crop_box img d) = box_w d ∧ (Z.max 0 (box_x d + box_w d) < im_w (crop_box img d))%Z.
Proof.
  intros Hx Hw. unfold crop_box, crop_array; cbn.
  rewrite !slice_bound_nonneg by lia. lia.
Qed.

(** ** Witnesses *)

Definition no_faces : Mtcnn := sample_mtcnn (λ _, []).

(** A world holding one 4x3 image. *)
Definition world_one_image : world :=
  mkWorld {[ "uploads/a.jpg" := blank 4 3 ]} {[ UPLOAD_FOLDER ]} 1 None [EvWrite "uploads/a.jpg"].

Lemma crop_face_spec_witness :
  (@crop_face sample_pillow no_faces "uploads/a.jpg" world_one_image).2 = world_one_image.
Proof. apply (proj1 (@crop_face_spec sample_pillow no_faces _ _ _)). Defined.

Lemma crop_box_within_witness :
  (im_w (crop_box (blank 4 3) (mkDetection 1 1 2 5)) ≤ 2)%Z.
Proof.
  assert (image_wf (blank 4 3)) as Hwf by (repeat split; cbn; try lia; repeat constructor).
  destruct (crop_box_within (blank 4 3) (mkDetection 1 1 2 5) Hwf ltac:(cbn; lia) ltac:(cbn; lia))
    as (_ & [H _] & _).
  exact H.
Defined.

Lemma crop_left_overhang_witness :
  im_w (crop_box (blank 4 3) (mkDetection (-1) 0 3 2)) = 3%Z.
Proof.
  destruct (crop_left_overhang (blank 4 3) (mkDetection (-1) 0 3 2)
              ltac:(cbn; lia) ltac:(cbn; lia)) as [-> _].
  reflexivity.
Defined.

(** Witness of C21: three boxes in a 4x3 image, of areas 2, 4 and 4. *)
Definition three_faces : Mtcnn :=
  sample_mtcnn (λ _, [mkDetection 0 0 1 2; mkDetection 1 1 2 2; mkDetection 0 0 4 1]).

Lemma crop_face_largest_witness :
  ∃ d, (box_w d * box_h d = 4)%Z ∧
       @crop_face sample_pillow three_faces "uploads/a.jpg" world_one_image =
       (f ← pil_resize face_size (crop_box (blank 4 3) d); Ret (Some f), world_one_image).
Proof.
  destruct (@crop_face_largest sample_pillow three_faces "uploads/a.jpg" world_one_image
              (blank 4 3) _ eq_refl eq_refl ltac:(discriminate))
    as (i & d & Hi & Hall & _ & Heq).
  exists d. split; [|exact Heq].
  pose proof (Hall (mkDetection 1 1 2 2) ltac:(cbn; set_solver)) as Hge.
  apply list_elem_of_lookup_2 in Hi. cbn in Hge.
  repeat (apply elem_of_cons in Hi as [->|Hi]; [cbn in *; lia|]). by apply elem_of_nil in Hi.
Defined.
