(* ===== verification/Scorer.v ===== *)
(** * The similarity scorer: one candidate of [verify]

    The body of the candidate loop of [verify] (lines 84-127 of
    [src/app.py]): crop the candidate's face; without one, record
    ["No face detected in candidate image"]; otherwise save both faces
    to fresh [tmp_selfie_<hex>.jpg] and [tmp_candidate_<hex>.jpg] files,
    call DeepFace on them with ArcFace, classify the distance against
    [CUSTOM_THRESHOLD] (a missing distance is no match), record the
    exception text if anything in the [try] raises, and remove both
    files in the [finally].

    The theorems: the match decision on every kind of distance (finite,
    infinite, NaN, missing), a finite one matching exactly up to the
    binary64 double of 0.55, that double included; the two temporary paths
    never coincide; with room on the disk one candidate step never
    raises, leaves no temporary file and records the DeepFace outcome;
    and when the disk fills between the two saves, the selfie crop is
    left behind, because the saves sit before the [try]. *)

From S2P Require Import Prelude Builtins Config Runtime Samples Localizer.
From stdpp Require Import pretty.
From Stdlib Require Import QArith_base.
Close Scope Q_scope.
Local Set Warnings "-clear-no-such-hyp".

(** [f"img{i}"]. *)
Definition field_name (i : nat) : string := "img" +:+ pretty (N.of_nat i).

(** [match = False if distance is None else distance <= CUSTOM_THRESHOLD]. *)
Definition is_match (distance : option pyfloat) : bool :=
  match distance with
  | None => false
  | Some d => py_le d CUSTOM_THRESHOLD
  end.

Definition no_candidate_face (i : nat) : result_entry :=
  REError (field_name i) "No face detected in candidate image".

Definition tmp_selfie_path (hex : string) : string :=
  path_join UPLOAD_FOLDER ("tmp_selfie_" +:+ hex +:+ ".jpg").

Definition tmp_candidate_path (hex : string) : string :=
  path_join UPLOAD_FOLDER ("tmp_candidate_" +:+ hex +:+ ".jpg").

Section Scorer.
Context `{Pillow} `{Mtcnn} `{DeepFace} `{Uuid}.

(** The [try] block: [DeepFace.verify] on the two files and the entry
    built from its answer. *)
Definition deepface_entry (i : nat) (tmp_s tmp_c : string) : M world result_entry :=
  a ← image_open_path tmp_s;
  b ← image_open_path tmp_c;
  res ← lift_outcome (df_verify a b model_name);
  let distance := res_distance res in
  mret (REScore (field_name i) (is_match distance) distance CUSTOM_THRESHOLD (res_model res)).

(** Lines 94-127: the temporary files, the [try]/[except]/[finally]. *)
Definition score_pair (selfie_face candidate_face : image) (i : nat) : M world result_entry :=
  h1 ← uuid_hex;
  let tmp_s := tmp_selfie_path h1 in
  h2 ← uuid_hex;
  let tmp_c := tmp_candidate_path h2 in
  image_save tmp_s selfie_face;;
  image_save tmp_c candidate_face;;
  try_finally
    (try_except (deepface_entry i tmp_s tmp_c)
                (λ e, mret (REError (field_name i) (exn_msg e))))
    (os_remove tmp_s;; os_remove tmp_c).

(** One iteration of the loop, [i] counting from 1: the entry it
    appends to [results]. *)
Definition candidate_step (selfie_face : image) (i : nat) (candidate_path : string) :
    M world result_entry :=
  cf ← crop_face candidate_path;
  match cf with
  | None => mret (no_candidate_face i)
  | Some candidate_face => score_pair selfie_face candidate_face i
  end.

End Scorer.

(** ** Lemmas *)

Lemma tmp_paths_differ h1 h2 : tmp_selfie_path h1 ≠ tmp_candidate_path h2.
Proof. unfold tmp_selfie_path, tmp_candidate_path, path_join. simpl. intros Heq. simplify_eq. Qed.

Section ScorerProofs.
Context `{Pillow} `{Mtcnn} `{DeepFace} `{Uuid}.

(** The entry the [try]/[except] records for DeepFace's answer. *)
Definition entry_of (i : nat) (r : outcome verify_result) : result_entry :=
  match r with
  | Ret res => REScore (field_name i) (is_match (res_distance res)) (res_distance res)
                       CUSTOM_THRESHOLD (res_model res)
  | Raise e => REError (field_name i) (exn_msg e)
  end.

(** The temporary crops go directly under [uploads/]. *)
Lemma tmp_parent_ok `{!UuidLaws} dirs n :
  parent_ok dirs (tmp_selfie_path (uuid4_hex n)) = bool_decide (UPLOAD_FOLDER ∈ dirs) ∧
  parent_ok dirs (tmp_candidate_path (uuid4_hex n)) = bool_decide (UPLOAD_FOLDER ∈ dirs).
Proof.
  unfold tmp_selfie_path, tmp_candidate_path.
  split; apply parent_ok_upload; rewrite !str_has_app, uuid_noslash; reflexivity.
Qed.

(** Without the [uploads] directory the first save fails: nothing is
    written and the exception leaves the loop. *)
Lemma score_pair_no_dir `{!UuidLaws} (sf cf : image) (i : nat) (w : world) :
  UPLOAD_FOLDER ∉ w_dirs w →
  score_pair sf cf i w =
    (Raise (ENOENT (tmp_selfie_path (uuid4_hex (w_rng w)))),
     mkWorld (w_files w) (w_dirs w) (S (S (w_rng w))) (w_quota w) (w_log w)).
Proof.
  intros Hd.
  assert (parent_ok (w_dirs w) (tmp_selfie_path (uuid4_hex (w_rng w))) = false) as Hs
    by (rewrite (proj1 (tmp_parent_ok _ _)); by apply bool_decide_eq_false_2).
  unfold score_pair, uuid_hex. run_m. cbn -[tmp_selfie_path tmp_candidate_path parent_ok].
  unfold image_save. cbn -[tmp_selfie_path tmp_candidate_path parent_ok]. by rewrite Hs.
Qed.

(** ** Theorems *)

(** With no limit on the disk, the whole run of [score_pair]: two
    draws, two writes, DeepFace's verdict (or its exception's text), two
    removals. *)
Lemma score_pair_unlimited `{!UuidLaws} (sf cf : image) (i : nat) (w : world) :
  UPLOAD_FOLDER ∈ w_dirs w → w_quota w = None →
  let tmp_s := tmp_selfie_path (uuid4_hex (w_rng w)) in
  let tmp_c := tmp_candidate_path (uuid4_hex (S (w_rng w))) in
  score_pair sf cf i w =
    (Ret (entry_of i (df_verify (pil_jpeg sf) (pil_jpeg cf) model_name)),
     mkWorld (delete tmp_c (delete tmp_s (w_files w))) (w_dirs w) (S (S (w_rng w))) None
             (w_log w ++ [EvWrite tmp_s; EvWrite tmp_c; EvRemove tmp_s; EvRemove tmp_c])).
Proof.
  intros Hd Hq tmp_s tmp_c.
  assert (parent_ok (w_dirs w) tmp_s = true) as Hs
    by (unfold tmp_s; rewrite (proj1 (tmp_parent_ok _ _)); by apply bool_decide_eq_true_2).
  assert (parent_ok (w_dirs w) tmp_c = true) as Hc
    by (unfold tmp_c; rewrite (proj2 (tmp_parent_ok _ _)); by apply bool_decide_eq_true_2).
  pose proof (tmp_paths_differ (uuid4_hex (w_rng w)) (uuid4_hex (S (w_rng w)))) as Hne.
  fold tmp_s tmp_c in Hne.
  unfold score_pair, uuid_hex. run_m. cbn. fold tmp_s tmp_c.
  unfold image_save. cbn. rewrite Hs, Hq. cbn. rewrite Hc.
  unfold try_finally, try_except, deepface_entry, image_open_path. run_m. cbn.
  rewrite lookup_insert_ne, lookup_insert_eq by done. cbn.
  rewrite lookup_insert_eq. cbn.
  destruct (df_verify (pil_jpeg sf) (pil_jpeg cf) model_name) as [res|e]; cbn;
    unfold os_remove; cbn;
    rewrite lookup_insert_ne, lookup_insert_eq by done; cbn;
    rewrite lookup_delete_ne, lookup_insert_eq by done; cbn;
    rewrite delete_insert_ne, delete_insert_eq, delete_insert_eq by done;
    rewrite <- !app_assoc; reflexivity.
Qed.

(** C8: with no limit on the disk, scoring a candidate never raises: it
    records DeepFace's verdict on the two crops, or the text of the
    exception DeepFace raised, for field [img<i>]; afterwards both
    temporary files are gone and every other file is as before. *)
Theorem score_pair_spec `{!UuidLaws} (sf cf : image) (i : nat) (w : world) :
  UPLOAD_FOLDER ∈ w_dirs w → w_quota w = None →
  (score_pair sf cf i w).1 = Ret (entry_of i (df_verify (pil_jpeg sf) (pil_jpeg cf) model_name)) ∧
  ∀ p, w_files (score_pair sf cf i w).2 !! p =
       if decide (p = tmp_selfie_path (uuid4_hex (w_rng w)) ∨
                  p = tmp_candidate_path (uuid4_hex (S (w_rng w))))
       then None else w_files w !! p.
Proof.
  intros Hd Hq. rewrite (score_pair_unlimited sf cf i w Hd Hq). split; [done|]. intros p. cbn.
  case_decide as Hp; [destruct Hp as [->| ->]|].
  - destruct (decide (tmp_selfie_path (uuid4_hex (w_rng w)) = tmp_candidate_path (uuid4_hex (S (w_rng w)))))
      as [Heq|Hne]; [by apply tmp_paths_differ in Heq|].
    rewrite lookup_delete_ne by done. apply lookup_delete_eq.
  - apply lookup_delete_eq.
  - rewrite !lookup_delete_ne; naive_solver.
Qed.

(** C10: when the disk takes exactly one more write, the selfie crop is
    written, saving the candidate crop raises [OSError], and since both
    saves come before the [try] whose [finally] removes them, the
    exception leaves the temporary selfie crop on the disk. *)
Theorem score_pair_leaks_selfie_crop `{!UuidLaws} (sf cf : image) (i : nat) (w : world) :
  UPLOAD_FOLDER ∈ w_dirs w → w_quota w = Some 1 →
  let tmp_s := tmp_selfie_path (uuid4_hex (w_rng w)) in
  let tmp_c := tmp_candidate_path (uuid4_hex (S (w_rng w))) in
  score_pair sf cf i w =
    (Raise (ENOSPC tmp_c),
     mkWorld (<[tmp_s := pil_jpeg sf]> (w_files w)) (w_dirs w) (S (S (w_rng w))) (Some 0)
             (w_log w ++ [EvWrite tmp_s])) ∧
  (score_pair sf cf i w).2.(w_files) !! tmp_s = Some (pil_jpeg sf).
Proof.
  intros Hd Hq tmp_s tmp_c.
  assert (parent_ok (w_dirs w) tmp_s = true) as Hs
    by (unfold tmp_s; rewrite (proj1 (tmp_parent_ok _ _)); by apply bool_decide_eq_true_2).
  assert (parent_ok (w_dirs w) tmp_c = true) as Hc
    by (unfold tmp_c; rewrite (proj2 (tmp_parent_ok _ _)); by apply bool_decide_eq_true_2).
  assert (score_pair sf cf i w =
    (Raise (ENOSPC tmp_c),
     mkWorld (<[tmp_s := pil_jpeg sf]> (w_files w)) (w_dirs w) (S (S (w_rng w))) (Some 0)
             (w_log w ++ [EvWrite tmp_s]))) as ->.
  { unfold score_pair, uuid_hex. run_m. cbn. fold tmp_s tmp_c. unfold image_save. cbn.
    rewrite Hs, Hq. cbn. by rewrite Hc. }
  split; [done|]. cbn. apply lookup_insert_eq.
Qed.

(** A candidate without a detectable face is recorded as such and
    scoring moves on; nothing of the world changes. *)
Lemma candidate_step_no_face sf i p w img :
  w_files w !! p = Some img → detect_faces img = [] →
  candidate_step sf i p w = (Ret (no_candidate_face i), w).
Proof.
  intros Hp Hd. unfold candidate_step. run_m.
  rewrite (crop_face_no_face p w img Hp Hd). reflexivity.
Qed.
(** Whatever happens on the disk or in DeepFace, an entry the loop
    appends for candidate [i] names the field [img<i>]. *)
Lemma score_pair_field sf cf i w r :
  (score_pair sf cf i w).1 = Ret r → entry_field r = field_name i.
Proof.
  unfold score_pair, uuid_hex, image_save, try_finally, try_except, deepface_entry. run_m. cbn.
  repeat (case_match; simplify_eq/=); try done; by intros [= <-].
Qed.

Lemma candidate_step_field sf i p w r :
  (candidate_step sf i p w).1 = Ret r → entry_field r = field_name i.
Proof.
  unfold candidate_step. run_m. destruct (crop_face p w) as [[[cf|]|e] w1]; cbn; [|by intros [= <-]|done].
  apply score_pair_field.
Qed.
(** C9: the [try]/[except] of the loop covers DeepFace only: when
    Pillow refuses to resize the crop of a candidate's largest face
    (an empty box, say), the exception leaves the loop, and the request,
    uncaught. *)
Theorem candidate_crop_error_escapes (sf : image) (i : nat) (p : string) (w : world)
    (img : image) (d : detection) (ds : list detection) (e : exn) :
  w_files w !! p = Some img → detect_faces img = d :: ds →
  pil_resize face_size (crop_box img (foldl (max_step box_area) d ds)) = Raise e →
  candidate_step sf i p w = (Raise e, w).
Proof.
  intros Hp Hd Hr. unfold candidate_step, crop_face, image_open_path. run_m.
  rewrite Hp. cbn. rewrite Hd. cbn. by rewrite Hr.
Qed.

End ScorerProofs.




(** C7: [is_match]: a finite distance is a match exactly when it is at
    most the binary64 double of the literal [0.55], that is
    2476979795053773 / 2^52, the threshold itself included ([<=], not
    [<]); so every distance up to 0.55 is a match and none from
    0.55 + 1e-16 up, the rounding of the literal moving the cut by less
    than 1e-16; a missing distance, NaN and +inf are no match, -inf is
    one. *)
Theorem is_match_threshold :
  (∀ q, is_match (Some (PFin q)) = true ↔ (q <= 2476979795053773 # 4503599627370496)%Q) ∧
  (∀ q, (q <= 55 # 100)%Q → is_match (Some (PFin q)) = true) ∧
  (∀ q, ((55 # 100) + (1 # 10000000000000000) <= q)%Q → is_match (Some (PFin q)) = false) ∧
  is_match None = false ∧ is_match (Some PNaN) = false ∧
  is_match (Some PInf) = false ∧ is_match (Some PNInf) = true.
Proof.
  assert (Hm : ∀ q, is_match (Some (PFin q)) = true ↔
                    (q <= 2476979795053773 # 4503599627370496)%Q) by (intros q; apply Qle_bool_iff).
  split; [exact Hm|split; [|split; [|done]]].
  - intros q Hq. apply Hm. eapply Qle_trans; [exact Hq|]. apply Qle_bool_iff. reflexivity.
  - intros q Hq. apply not_true_iff_false. rewrite Hm. intros Hle.
    assert (Hlt : (2476979795053773 # 4503599627370496 < (55 # 100) + (1 # 10000000000000000))%Q)
      by (unfold Qlt; reflexivity).
    apply (Qlt_not_le _ _ Hlt). eapply Qle_trans; [exact Hq|exact Hle].
Qed.

(** ** Witnesses *)

(** A DeepFace that answers distance 0.40 for every pair. *)
Definition deepface_040 : DeepFace :=
  sample_deepface (λ _ _, Ret (mkVerifyResult (Some (PFin (40 # 100))) (Some "ArcFace"))).

Section Witnesses.
#[local] Existing Instance deepface_040.

Lemma score_pair_spec_witness :
  (score_pair (blank 2 2) (blank 2 2) 2 empty_world).1 =
  Ret (REScore "img2" true (Some (PFin (40 # 100))) CUSTOM_THRESHOLD (Some "ArcFace")).
Proof. rewrite (proj1 (score_pair_spec _ _ _ empty_world empty_world_dir eq_refl)). vm_compute. reflexivity. Defined.

Lemma score_pair_leaks_selfie_crop_witness :
  (score_pair (blank 2 2) (blank 2 2) 1 (mkWorld ∅ {[ UPLOAD_FOLDER ]} 0 (Some 1) [])).2.(w_files)
    !! "uploads/tmp_selfie_f0.jpg" = Some (blank 2 2).
Proof.
  destruct (score_pair_leaks_selfie_crop (blank 2 2) (blank 2 2) 1 (mkWorld ∅ {[ UPLOAD_FOLDER ]} 0 (Some 1) [])
              ltac:(cbn; set_solver) eq_refl)
    as [_ H].
  exact H.
Defined.
End Witnesses.

(** The distances of the spec's scenario, 0.40 matching and 0.80 not,
    and the threshold double itself, which matches. *)
Lemma is_match_threshold_witness :
  is_match (Some (PFin (2476979795053773 # 4503599627370496))) = true ∧
  is_match (Some (PFin (40 # 100))) = true ∧ is_match (Some (PFin (80 # 100))) = false.
Proof.
  destruct is_match_threshold as (Hiff & Hlo & Hhi & _).
  split; [apply Hiff; apply Qle_refl|split; [apply Hlo | apply Hhi]; vm_compute; discriminate].
Defined.

(** Witness of C9: a detector that reports an empty box. *)
Definition empty_box_mtcnn : Mtcnn := sample_mtcnn (λ _, [mkDetection 1 1 0 2]).

Lemma candidate_crop_error_escapes_witness :
  @candidate_step sample_pillow empty_box_mtcnn deepface_040 sample_uuid (blank 112 112) 1
    "uploads/c.jpg" (mkWorld {[ "uploads/c.jpg" := blank 30 5 ]} {[ UPLOAD_FOLDER ]} 0 None []) =
  (Raise (mkExn "ValueError" "empty image"), mkWorld {[ "uploads/c.jpg" := blank 30 5 ]} {[ UPLOAD_FOLDER ]} 0 None []).
Proof.
  apply (candidate_crop_error_escapes _ _ _ _ (blank 30 5) (mkDetection 1 1 0 2) []).
  - apply lookup_insert_eq.
  - reflexivity.
  - vm_compute. reflexivity.
Defined.
