(* ===== verification/Handler.v ===== *)
(** * The orchestrator: [verify], [home] and the routes

    [verify] (lines 58-141 of [src/app.py]) validates the fields, then,
    inside [try ... finally], saves the five uploads (appending each path
    to [saved_paths]), crops the selfie's face (a 400 without one), scores
    the four candidates in order and answers with the results and
    [final_decision = any(r.get("match") for r in results)]; the
    [finally] removes every path of [saved_paths], swallowing the errors.
    Because the [finally] reads [saved_paths] as it is when the body
    stops, the handler runs on a frame: the world and that list.

    Flask turns what [verify] raises into a 413 ([RequestEntityTooLarge])
    or a 500 (anything else); [home] answers [GET /]; [handle] is Flask's
    dispatch over the two rules.  [Threads.v] cuts the same handler into
    the atomic steps the threaded server interleaves. *)

From S2P Require Import Prelude Builtins Config Runtime Samples Validator Persist Localizer Scorer.
From stdpp Require Import pretty.
From Stdlib Require Import QArith_base.
Close Scope Q_scope.
Local Set Warnings "-clear-no-such-hyp".

(** [any(r.get("match") for r in results)]. *)
Definition final_decision (results : list result_entry) : bool :=
  py_any (map entry_match results).

Definition no_face_in_selfie : response := RespError 400 "No face detected in selfie".

(** The local state of [verify] across its [try]: the world and
    [saved_paths]. *)
Abbreviation frame := (world * list string)%type.

(** [try: os.remove(p) except: pass]. *)
Definition remove_quietly (p : string) : M world unit :=
  try_except (os_remove p) (λ _, mret tt).

(** The [finally] block: [for p in saved_paths: ...]. *)
Definition cleanup : M frame unit :=
  st ← get_st;
  on_fst (for_each st.2 remove_quietly).

Section Handler.
Context `{Pillow} `{Mtcnn} `{DeepFace} `{Werkzeug} `{Uuid}.

(** One iteration of [for k, f in files.items()]:
    [path = save_file(f); saved_paths.append(path)]. *)
Definition save_step (kf : string * upload) : M frame unit :=
  path ← on_fst (save_file kf.2);
  modify_st (λ st, (st.1, st.2 ++ [path])).

Definition save_all (files : list (string * upload)) : M frame unit :=
  for_each files save_step.

(** One iteration of [for i, candidate_path in enumerate(candidate_paths, start=1)]:
    the entry of candidate [i] appended to [results]. *)
Definition candidate_entry (selfie_face : image) (results : list result_entry)
    (ip : nat * string) : M world (list result_entry) :=
  r ← candidate_step selfie_face ip.1 ip.2;
  mret (results ++ [r]).

Definition score_candidates (selfie_face : image) (candidate_paths : list string) :
    M world (list result_entry) :=
  fold_m (candidate_entry selfie_face) (zip (seq 1 (length candidate_paths)) candidate_paths) [].

(** The body of the [try] of [verify]. *)
Definition verify_body (files : list (string * upload)) : M frame response :=
  save_all files;;
  st ← get_st;
  let saved_paths := st.2 in
  selfie_path ← lift_outcome (py_index saved_paths 0);
  let candidate_paths := py_slice saved_paths 1 (Z.of_nat (length saved_paths)) in
  selfie_face ← on_fst (crop_face selfie_path);
  match selfie_face with
  | None => mret no_face_in_selfie
  | Some sf =>
      results ← on_fst (score_candidates sf candidate_paths);
      mret (RespResults results (final_decision results))
  end.

(** [verify()]: the field loop, then [try: body finally: cleanup] run on
    a frame whose [saved_paths] starts empty. *)
Definition verify (req : request) : M world response :=
  match validate req with
  | Raise e => raise e
  | Ret (inl r) => mret r
  | Ret (inr files) => λ w,
      let '(r, (w', _)) := try_finally (verify_body files) cleanup (w, []) in (r, w')
  end.

End Handler.

(** ** The application *)

Definition home_text : string := "Face API running. POST /verify with 5 images (selfie + 4).".

Definition MethodNotAllowed : exn := mkExn "MethodNotAllowed" "405 Method Not Allowed".
Definition NotFound : exn := mkExn "NotFound" "404 Not Found".

(** Flask's handling of an exception leaving a view: an HTTP exception
    is its own response, anything else a 500. *)
Definition flask_response (r : outcome response) : response :=
  match r with
  | Ret resp => resp
  | Raise e =>
      if bool_decide (exn_type e = exn_type RequestEntityTooLarge) then RespHttpError 413 e
      else RespServerError e
  end.

Section App.
Context `{Pillow} `{Mtcnn} `{DeepFace} `{Werkzeug} `{Uuid}.

(** Flask's URL map, built by the two decorators [@app.route("/")] and
    [@app.route("/verify", methods=["POST"])]: the methods each rule
    accepts, with the [HEAD] Flask adds to a [GET] rule and the [OPTIONS]
    it adds to every rule. *)
Definition allowed_methods (path : string) : option (gset string) :=
  if bool_decide (path = "/") then Some {[ "GET"; "HEAD"; "OPTIONS" ]}
  else if bool_decide (path = "/verify") then Some {[ "POST"; "OPTIONS" ]}
  else None.

(** Flask's dispatch of a request: 404 for a path no rule matches, 405
    for a method the rule does not accept, the automatic answer to
    [OPTIONS], and otherwise the view: [home] (whose body a [HEAD] answer
    omits) or [verify], whose escaping exception Flask turns into a
    response. *)
Definition handle (req : request) : M world response := λ w,
  match allowed_methods (req_path req) with
  | None => (Ret (RespHttpError 404 NotFound), w)
  | Some ms =>
      if bool_decide (req_method req ∉ ms) then (Ret (RespHttpError 405 MethodNotAllowed), w)
      else if bool_decide (req_method req = "OPTIONS") then (Ret (RespOptions ms), w)
      else if bool_decide (req_path req = "/") then (Ret (RespText home_text), w)
      else let '(r, w') := verify req w in (Ret (flask_response r), w')
  end.

End App.

(** ** The cleanup invariant

    Relative to the world [w0] a request starts from, with [δ] the file
    events since: the disk keeps no limit; a path never written is as in
    [w0]; a written path is in [saved_paths] or gone; every path of
    [saved_paths] was written. *)
Definition clean_inv (w0 : world) (sp : list string) (w : world) : Prop :=
  w_quota w = None ∧
  ∃ δ, w_log w = w_log w0 ++ δ ∧
       ∀ p, (p ∉ written δ → w_files w !! p = w_files w0 !! p) ∧
            (p ∈ written δ → p ∈ sp ∨ w_files w !! p = None) ∧
            (p ∈ sp → p ∈ written δ).

Lemma written_cons_write p l : written (EvWrite p :: l) = p :: written l.
Proof. done. Qed.

Lemma written_cons_remove p l : written (EvRemove p :: l) = written l.
Proof. done. Qed.

#[export] Hint Rewrite written_cons_write written_cons_remove : faceapi_rw.

Lemma clean_inv_start w0 : w_quota w0 = None → clean_inv w0 [] w0.
Proof.
  intros Hq. split; [done|]. exists []. rewrite app_nil_r. split; [done|].
  intros p. cbn. set_solver.
Qed.

Section CleanInv.
Context `{Pillow} `{Mtcnn} `{DeepFace} `{Werkzeug} `{Uuid} `{!UuidLaws}.

(** Saving one upload and appending its path keeps the invariant. *)
Lemma save_step_clean w0 kf :
  preserves (λ st : frame, clean_inv w0 st.2 st.1) (save_step kf).
Proof.
  intros [w sp] (Hq & δ & Hlog & Hp). unfold save_step, on_fst. run_m. cbn in *.
  pose proof (save_file_effect kf.2 w) as Heff.
  destruct (save_file kf.2 w) as [[path|e] w'] eqn:E; cbn in *; rewrite Hq in Heff; cbn in Heff.
  - destruct Heff as (_ & _ & Hq' & <- & _ & img & _ & Hfiles & Hlog').
    split; [done|]. exists (δ ++ [EvWrite path]).
    rewrite Hlog', Hlog, <- app_assoc. split; [done|].
    intros p. autorewrite with faceapi_rw. cbn. rewrite Hfiles. specialize (Hp p).
    destruct (decide (p = path)) as [->|Hne].
    + rewrite lookup_insert_eq. set_solver.
    + rewrite lookup_insert_ne by done. set_solver.
  - destruct Heff as (_ & _ & Hq' & Hfiles & Hlog' & _). split; [done|]. exists δ.
    rewrite Hlog', Hfiles. by split.
Qed.

Lemma crop_face_clean w0 sp p : preserves (clean_inv w0 sp) (crop_face p).
Proof. intros w Hw. by rewrite crop_face_world. Qed.

(** One candidate step keeps the invariant: its temporary files are
    written and removed again. *)
Lemma candidate_step_clean w0 sp sf i p : preserves (clean_inv w0 sp) (candidate_step sf i p).
Proof.
  unfold candidate_step. apply preserves_bind; [apply crop_face_clean|].
  intros [cf|]; [|apply preserves_ret].
  intros w (Hq & δ & Hlog & Hp).
  destruct (decide (UPLOAD_FOLDER ∈ w_dirs w)) as [Hd|Hd].
  2: { rewrite (score_pair_no_dir sf cf i w Hd). split; [done|]. by exists δ. }
  rewrite (score_pair_unlimited sf cf i w Hd Hq). cbn.
  set (ts := tmp_selfie_path _). set (tc := tmp_candidate_path _).
  split; [done|]. exists (δ ++ [EvWrite ts; EvWrite tc; EvRemove ts; EvRemove tc]).
  rewrite Hlog, <- app_assoc. split; [done|].
  intros q. autorewrite with faceapi_rw. cbn. specialize (Hp q).
  destruct (decide (q = tc)) as [->|Hc]; [rewrite lookup_delete_eq; set_solver|].
  rewrite lookup_delete_ne by done.
  destruct (decide (q = ts)) as [->|Hs]; [rewrite lookup_delete_eq; set_solver|].
  rewrite lookup_delete_ne by done. set_solver.
Qed.

Lemma score_candidates_clean w0 sp sf cps : preserves (clean_inv w0 sp) (score_candidates sf cps).
Proof.
  unfold score_candidates. apply preserves_fold_m. intros acc [i p] _.
  unfold candidate_entry. apply preserves_bind; [apply candidate_step_clean|]. intros r. apply preserves_ret.
Qed.

(** The whole body of the [try] keeps the invariant, on every path. *)
Lemma verify_body_clean w0 files :
  preserves (λ st : frame, clean_inv w0 st.2 st.1) (verify_body files).
Proof.
  unfold verify_body. apply preserves_bind.
  { apply preserves_for_each. intros kf _. apply save_step_clean. }
  intros _. apply preserves_bind; [apply preserves_get|]. intros st.
  apply preserves_bind; [apply preserves_lift|]. intros sp0.
  apply preserves_bind.
  { apply (preserves_on_fst (λ w sp, clean_inv w0 sp w)). intros sp. apply crop_face_clean. }
  intros [sf|]; [|apply preserves_ret].
  apply preserves_bind; [|intros; apply preserves_ret].
  apply (preserves_on_fst (λ w sp, clean_inv w0 sp w)). intros sp. apply score_candidates_clean.
Qed.
End CleanInv.

(** The [finally] loop removes exactly the paths of [saved_paths]; it
    never raises and writes nothing. *)
Lemma remove_quietly_spec q w :
  remove_quietly q w =
  (Ret tt, match w_files w !! q with
           | Some _ => mkWorld (delete q (w_files w)) (w_dirs w) (w_rng w) (w_quota w) (w_log w ++ [EvRemove q])
           | None => w
           end).
Proof. unfold remove_quietly, try_except, os_remove. by destruct (w_files w !! q). Qed.

Lemma remove_all_spec (sp : list string) (w : world) :
  ∃ ε files', for_each sp remove_quietly w =
                (Ret tt, mkWorld files' (w_dirs w) (w_rng w) (w_quota w) (w_log w ++ ε)) ∧
              written ε = [] ∧
              ∀ p, files' !! p = if decide (p ∈ sp) then None else w_files w !! p.
Proof.
  revert w. induction sp as [|q sp IH]; intros w.
  - exists [], (w_files w). rewrite app_nil_r. destruct w. split; [done|]. split; [done|].
    intros p. by rewrite decide_False by set_solver.
  - cbn [for_each]. run_m. rewrite remove_quietly_spec.
    destruct (w_files w !! q) as [i|] eqn:Hq; cbn.
    + destruct (IH (mkWorld (delete q (w_files w)) (w_dirs w) (w_rng w) (w_quota w) (w_log w ++ [EvRemove q])))
        as (ε & files' & Heq & Hw & Hfiles).
      exists (EvRemove q :: ε), files'. rewrite Heq. cbn. rewrite <- app_assoc. split; [done|].
      split; [done|]. intros p. rewrite Hfiles. cbn.
      destruct (decide (p ∈ sp)), (decide (p ∈ q :: sp)); [done|set_solver| |].
      * assert (p = q) as -> by set_solver. apply lookup_delete_eq.
      * apply lookup_delete_ne. set_solver.
    + destruct (IH w) as (ε & files' & Heq & Hw & Hfiles). exists ε, files'. rewrite Heq.
      split; [done|]. split; [done|]. intros p. rewrite Hfiles.
      destruct (decide (p ∈ sp)), (decide (p ∈ q :: sp)); [done|set_solver| |done].
      assert (p = q) as -> by set_solver. done.
Qed.

(** ** Runs of the body *)

Section Runs.
Context `{Pillow} `{Mtcnn} `{DeepFace} `{Werkzeug} `{Uuid}.

(** The paths [save_all] gives the uploads, the draws numbered from [n]. *)
Fixpoint paths_from (n : nat) (files : list (string * upload)) : list string :=
  match files with
  | [] => []
  | kf :: fs => upload_path n (ext_of (secure_filename (filename kf.2))) :: paths_from (S n) fs
  end.

(** An upload Pillow can decode. *)
Definition decodes (kf : string * upload) : Prop := ∃ img, open_upload kf.2 = Ret img.

Lemma length_paths_from n files : length (paths_from n files) = length files.
Proof. revert n. induction files as [|kf files IH]; intros n; cbn; [done|by rewrite IH]. Qed.

Lemma upload_path_notin `{!UuidLaws} n m e files :
  n < m → upload_path n e ∉ paths_from m files.
Proof.
  revert m. induction files as [|kf files IH]; intros m Hlt; cbn; [set_solver|].
  rewrite elem_of_cons. intros [Heq%upload_path_inj|Hin]; [lia|]. revert Hin. apply IH. lia.
Qed.

(** [save_file] on a decodable upload, with [uploads/] present and a
    disk without limit. *)
Lemma save_file_decoded `{!UuidLaws} `{!WerkzeugLaws} u w :
  UPLOAD_FOLDER ∈ w_dirs w → w_quota w = None → (∃ img, open_upload u = Ret img) →
  ∃ w1 img, save_file u w = (Ret (upload_path (w_rng w) (ext_of (secure_filename (filename u)))), w1) ∧
            open_upload u = Ret img ∧ w_dirs w1 = w_dirs w ∧ w_quota w1 = None ∧
            w_rng w1 = S (w_rng w) ∧
            w_files w1 = <[upload_path (w_rng w) (ext_of (secure_filename (filename u))) :=
                            pil_jpeg (normalize img)]> (w_files w).
Proof.
  intros Hd Hq [img0 Ho0]. pose proof (save_file_effect u w) as Heff.
  destruct (save_file u w) as [[p|e] w1]; cbn in Heff; rewrite Hq in Heff.
  - destruct Heff as (Hr & Hdirs & Hq1 & -> & _ & img & Ho & Hf & _). eauto 10.
  - destruct Heff as (_ & _ & _ & _ & _ & [Ho|(_ & [[Hp _]|(_ & [=] & _)])]); [congruence|].
    unfold upload_path in Hp.
    rewrite parent_ok_upload, bool_decide_true in Hp by (done || apply upload_name_noslash).
    discriminate.
Qed.

Lemma save_step_run kf w sp :
  save_step kf (w, sp) =
    match save_file kf.2 w with
    | (Ret p, w1) => (Ret tt, (w1, sp ++ [p]))
    | (Raise e, w1) => (Raise e, (w1, sp))
    end.
Proof. unfold save_step, on_fst. run_m. cbn. by destruct (save_file kf.2 w) as [[]]. Qed.

(** The save loop on decodable uploads, [uploads/] present and a disk
    without limit: every upload is written, [saved_paths] grows by their
    paths in order, and every other file is unchanged. *)
Lemma save_all_ok `{!UuidLaws} `{!WerkzeugLaws} files w sp0 :
  UPLOAD_FOLDER ∈ w_dirs w → w_quota w = None → Forall decodes files →
  ∃ w', save_all files (w, sp0) = (Ret tt, (w', sp0 ++ paths_from (w_rng w) files)) ∧
        w_dirs w' = w_dirs w ∧ w_quota w' = None ∧ w_rng w' = w_rng w + length files ∧
        ∀ p, p ∉ paths_from (w_rng w) files → w_files w' !! p = w_files w !! p.
Proof.
  revert w sp0. induction files as [|[k u] fs IH]; intros w sp0 Hdir Hq Hall.
  - exists w. rewrite app_nil_r, Nat.add_0_r. done.
  - apply Forall_cons in Hall as [Hd Hall].
    destruct (save_file_decoded u w Hdir Hq Hd) as (w1 & img & E & _ & Hd1 & Hq1 & Hr1 & Hf1).
    destruct (IH w1 (sp0 ++ [upload_path (w_rng w) (ext_of (secure_filename (filename u)))])
                 ltac:(by rewrite Hd1) Hq1 Hall)
      as (w' & E' & Hd' & Hq' & Hr' & Hf').
    rewrite Hr1 in E', Hr', Hf'. exists w'. unfold save_all in *. cbn [for_each]. run_m.
    rewrite save_step_run. cbn. rewrite E, E', <- app_assoc. cbn.
    split; [done|]. split; [congruence|]. split; [done|]. split; [lia|].
    intros p Hp. rewrite Hf', Hf1 by set_solver. apply lookup_insert_ne. set_solver.
Qed.

(** With the uploads before it decodable, [uploads/] present and the disk
    without limit, the save loop raises at an upload that is no image. *)
Lemma save_all_undecodable `{!UuidLaws} `{!WerkzeugLaws} pre k u post w sp0 :
  UPLOAD_FOLDER ∈ w_dirs w → w_quota w = None → Forall decodes pre → pil_open (stream u) = None →
  (save_all (pre ++ (k, u) :: post) (w, sp0)).1 = Raise UnidentifiedImageError.
Proof.
  revert w sp0. induction pre as [|[k' u'] pre IH]; intros w sp0 Hdir Hq Hall Hu;
    unfold save_all in *; cbn [for_each app]; run_m; rewrite save_step_run; cbn.
  - pose proof (save_file_effect u w) as Heff. unfold open_upload in Heff. rewrite Hu in Heff.
    destruct (save_file u w) as [[p|e] w1]; cbn in Heff |- *; rewrite Hq in Heff.
    + by destruct Heff as (_ & _ & _ & _ & _ & img & [=] & _).
    + destruct Heff as (_ & _ & _ & _ & _ & [[= ->]|([img [=]] & _)]). done.
  - apply Forall_cons in Hall as [Hd Hall].
    destruct (save_file_decoded u' w Hdir Hq Hd) as (w1 & img & E & _ & Hd1 & Hq1 & _).
    rewrite E. cbn. apply IH; [by rewrite Hd1|done..].
Qed.

(** A save loop that finishes has appended one path per upload. *)
Lemma save_all_length files w sp0 :
  (save_all files (w, sp0)).1 = Ret tt →
  length (save_all files (w, sp0)).2.2 = length sp0 + length files.
Proof.
  revert w sp0. induction files as [|kf fs IH]; intros w sp0; [cbn; lia|].
  unfold save_all in *. cbn [for_each]. run_m. rewrite save_step_run.
  destruct (save_file kf.2 w) as [[p|e] w1]; cbn; [|done].
  intros Hr. rewrite (IH w1 (sp0 ++ [p]) Hr), length_app. cbn. lia.
Qed.

(** The finally loop never raises, so [verify] answers with what the
    body gave. *)
Lemma verify_outcome req w files :
  validate req = Ret (inr files) → (verify req w).1 = (verify_body files (w, [])).1.
Proof.
  intros Hv. unfold verify. rewrite Hv. unfold try_finally.
  destruct (verify_body files (w, [])) as [r [w1 sp1]].
  unfold cleanup. run_m. unfold on_fst. cbn.
  by destruct (remove_all_spec sp1 w1) as (ε & files' & -> & _).
Qed.

(** The body after a successful save loop: the selfie is the first saved
    path, the candidates the others. *)
Lemma verify_body_saved files w p0 sps w' :
  save_all files (w, []) = (Ret tt, (w', p0 :: sps)) →
  verify_body files (w, []) =
    (selfie_face ← on_fst (crop_face p0);
     match selfie_face with
     | None => mret no_face_in_selfie
     | Some sf =>
         results ← on_fst (score_candidates sf (py_slice (p0 :: sps) 1 (Z.of_nat (length (p0 :: sps)))));
         mret (RespResults results (final_decision results))
     end) (w', p0 :: sps).
Proof. intros E. unfold verify_body. run_m. rewrite E. reflexivity. Qed.

End Runs.

Section Cleanup.
Context `{Pillow} `{Mtcnn} `{DeepFace} `{Werkzeug} `{Uuid}.

(** ** Theorems *)

(** The cleanup of [verify], as the file map after it. *)
Lemma verify_cleanup `{!UuidLaws} (req : request) (w : world) :
  w_quota w = None →
  ∃ δ, w_log (verify req w).2 = w_log w ++ δ ∧
       ∀ p, w_files (verify req w).2 !! p =
            if decide (p ∈ written δ) then None else w_files w !! p.
Proof.
  intros Hq. unfold verify.
  destruct (validate req) as [[r|files]|e];
    [| |exists []; rewrite app_nil_r; split; [done|]; intros p; by rewrite decide_False by set_solver].
  { exists []. rewrite app_nil_r. split; [done|]. intros p. by rewrite decide_False by set_solver. }
  cbn. unfold try_finally.
  pose proof (verify_body_clean w files (w, []) (clean_inv_start w Hq)) as Hinv.
  destruct (verify_body files (w, [])) as [r1 [w1 sp1]]; cbn in Hinv.
  destruct Hinv as (Hq1 & δ & Hlog1 & Hp).
  unfold cleanup. run_m. unfold on_fst. cbn.
  destruct (remove_all_spec sp1 w1) as (ε & files' & Heq & Hε & Hfiles).
  rewrite Heq. cbn. exists (δ ++ ε). rewrite Hlog1, <- app_assoc. split; [done|].
  intros p. rewrite Hfiles, written_app, Hε, app_nil_r. specialize (Hp p).
  destruct (decide (p ∈ sp1)); destruct (decide (p ∈ written δ)); set_solver.
Qed.

(** C1: whatever the uploads, the detector and DeepFace do, as long as
    the disk does not fill up: after [verify] every file the request
    wrote (the five uploads, every temporary crop) is gone and every
    other file is as it was, on every exit: a validation error, the 400
    for a selfie without a face, the 200, or an exception. *)
Theorem verify_leaves_no_files `{!UuidLaws} (req : request) (w : world) :
  w_quota w = None →
  ∃ δ, w_log (verify req w).2 = w_log w ++ δ ∧
       ∀ p, w_files (verify req w).2 !! p =
            if decide (p ∈ written δ) then None else w_files w !! p.
Proof. apply verify_cleanup. Qed.
End Cleanup.

(** ** The answers of [verify] *)

Section Answers.
Context `{Pillow} `{Mtcnn} `{DeepFace} `{Werkzeug} `{Uuid}.

Lemma final_decision_spec results :
  final_decision results = true ↔ ∃ r, r ∈ results ∧ entry_match r = true.
Proof.
  unfold final_decision, py_any. rewrite existsb_exists. split.
  - intros (b & (r & <- & Hr)%in_map_iff & Hb). exists r. by rewrite list_elem_of_In.
  - intros (r & Hr & Hm). exists (entry_match r). split; [|done].
    apply in_map_iff. exists r. by rewrite <- list_elem_of_In.
Qed.

(** The loop over the candidates appends one entry per candidate, the
    [i]-th naming [img<i>]. *)
Lemma score_candidates_fields sf cps w results :
  (score_candidates sf cps w).1 = Ret results →
  map entry_field results = map field_name (seq 1 (length cps)).
Proof.
  intros Hr. unfold score_candidates in Hr.
  set (l := zip (seq 1 (length cps)) cps) in Hr.
  assert (Hlen : length l = length cps) by (unfold l; rewrite length_zip_with, length_seq; lia).
  rewrite <- Hlen.
  refine (triple_fold_m _ l (λ n acc _, map entry_field acc = map field_name (seq 1 n))
            (λ r _, ∀ res, r = Ret res → map entry_field res = map field_name (seq 1 (length l)))
            _ _ [] w eq_refl results Hr).
  - intros i [j p] acc Hi s Hs. apply lookup_zip_with_Some in Hi as (j' & p' & [= <- <-] & Hj & _).
    apply lookup_seq in Hj as [-> _]. unfold candidate_entry. run_m. cbn [fst snd].
    pose proof (candidate_step_field sf (1 + i) p s) as Hf.
    destruct (candidate_step sf (1 + i) p s) as [[r|e] s']; cbn [then_post fst snd]; [|by intros ? [=]].
    rewrite seq_S, !map_app, Hs. cbn [map]. by rewrite (Hf r eq_refl).
  - intros acc s Hacc res [= <-]. done.
Qed.

(** With the draws distinct, the first upload is still on the disk when
    the save loop has written the others. *)
Lemma save_all_first `{!UuidLaws} `{!WerkzeugLaws} k u rest w img :
  UPLOAD_FOLDER ∈ w_dirs w → w_quota w = None → open_upload u = Ret img → Forall decodes rest →
  ∃ w' sps,
    save_all ((k, u) :: rest) (w, []) =
      (Ret tt, (w', upload_path (w_rng w) (ext_of (secure_filename (filename u))) :: sps)) ∧
    w_files w' !! upload_path (w_rng w) (ext_of (secure_filename (filename u))) =
      Some (pil_jpeg (normalize img)) ∧
    length sps = length rest.
Proof.
  intros Hdir Hq Ho Hrest.
  destruct (save_file_decoded u w Hdir Hq (ex_intro _ img Ho))
    as (w1 & img' & E1 & Ho' & Hd1 & Hq1 & Hr1 & Hf1).
  rewrite Ho in Ho'. injection Ho' as <-.
  set (p0 := upload_path (w_rng w) _) in *.
  destruct (save_all_ok rest w1 [p0] ltac:(by rewrite Hd1) Hq1 Hrest) as (w' & E' & _ & _ & _ & Hf').
  exists w', (paths_from (w_rng w1) rest). split; [|split].
  - unfold save_all in *. cbn [for_each]. run_m. rewrite save_step_run. cbn [snd]. rewrite E1. exact E'.
  - rewrite Hf', Hf1 by (rewrite Hr1; apply upload_path_notin; lia). apply lookup_insert_eq.
  - apply length_paths_from.
Qed.

(** The answer of the body once the save loop has finished with the
    five paths. *)
Lemma verify_body_results files w results fd :
  (verify_body files (w, [])).1 = Ret (RespResults results fd) →
  map entry_field results = map field_name (seq 1 (length files - 1)) ∧ fd = final_decision results.
Proof.
  pose proof (save_all_length files w []) as Hlen.
  destruct (save_all files (w, [])) as [[[]|e] [w1 sp1]] eqn:Es; cbn in Hlen.
  2: { unfold verify_body. run_m. rewrite Es. by intros [=]. }
  specialize (Hlen eq_refl). destruct sp1 as [|p0 sps]; cbn in Hlen.
  { destruct files; cbn in Hlen; [|lia]. unfold verify_body. run_m. rewrite Es. by intros [=]. }
  rewrite (verify_body_saved _ _ _ _ _ Es). run_m. unfold on_fst. cbn -[crop_face score_candidates].
  destruct (crop_face p0 w1) as [[[sf|]|e] w2]; cbn -[score_candidates]; [|by intros [=]|by intros [=]].
  pose proof (score_candidates_fields sf (py_slice (p0 :: sps) 1 (Z.of_nat (S (length sps)))) w2) as Hf.
  destruct (score_candidates sf _ w2) as [[res|e] w3]; cbn; [|by intros [=]].
  intros [= <- <-]. split; [|done]. rewrite (Hf res eq_refl), length_py_slice. f_equal. f_equal.
  cbn [length]. unfold slice_bound. destruct (Z.ltb_spec (Z.of_nat (S (length sps))) 0); [lia|].
  cbn. lia.
Qed.

(** ** Theorems *)

(** C2: a 200 answer lists exactly four entries, for img1, img2, img3
    and img4 in this order (one per candidate, whatever happened to it),
    and its [final_decision] is true exactly when one of them is a
    match. *)
Theorem verify_results_fields (req : request) (w : world) (results : list result_entry) (fd : bool) :
  (verify req w).1 = Ret (RespResults results fd) →
  map entry_field results = ["img1"; "img2"; "img3"; "img4"] ∧
  (fd = true ↔ ∃ r, r ∈ results ∧ entry_match r = true).
Proof.
  destruct (validate req) as [[r|files]|e] eqn:Hv.
  - unfold verify. rewrite Hv. cbn. intros [= ->].
    destruct (validate_inl_error req _ Hv) as [key [[=]|[=]]].
  - rewrite (verify_outcome req w files Hv). intros (Hf & ->)%verify_body_results.
    destruct (validate_inr_files req files Hv) as (_ & Hdom & _).
    assert (length files = 5) as Hl by (rewrite <- (length_fmap fst), Hdom; done).
    rewrite Hl in Hf. split; [exact Hf|apply final_decision_spec].
  - unfold verify. rewrite Hv. done.
Qed.

(** C5: once validation has passed, a selfie in which MTCNN finds no
    face gives the 400 [No face detected in selfie] and no result, as
    long as every upload decodes, [uploads/] exists and the disk takes the
    writes. *)
Theorem verify_selfie_without_face `{!UuidLaws} `{!WerkzeugLaws} (req : request) (w : world)
    (u0 : upload) (rest : list (string * upload)) (img0 : image) :
  validate req = Ret (inr (("selfie", u0) :: rest)) →
  UPLOAD_FOLDER ∈ w_dirs w → w_quota w = None →
  open_upload u0 = Ret img0 → Forall decodes rest →
  detect_faces (pil_jpeg (normalize img0)) = [] →
  (verify req w).1 = Ret no_face_in_selfie.
Proof.
  intros Hv Hdir Hq Ho Hrest Hd. rewrite (verify_outcome req w _ Hv).
  destruct (save_all_first "selfie" u0 rest w img0 Hdir Hq Ho Hrest) as (w' & sps & E & Hp0 & _).
  rewrite (verify_body_saved _ _ _ _ _ E). run_m. unfold on_fst. cbn -[crop_face].
  by rewrite (crop_face_no_face _ w' _ Hp0 Hd).
Qed.

(** C6: the uploads are all saved before the selfie is looked at, so an
    upload Pillow cannot decode, a candidate included, makes [verify]
    raise [UnidentifiedImageError] (a 500) whatever the selfie shows. *)
Theorem verify_undecodable_upload `{!UuidLaws} `{!WerkzeugLaws} (req : request) (w : world)
    pre k u post :
  validate req = Ret (inr (pre ++ (k, u) :: post)) →
  UPLOAD_FOLDER ∈ w_dirs w → w_quota w = None →
  Forall decodes pre → pil_open (stream u) = None →
  (verify req w).1 = Raise UnidentifiedImageError.
Proof.
  intros Hv Hdir Hq Hpre Hu. rewrite (verify_outcome req w _ Hv). unfold verify_body. run_m.
  pose proof (save_all_undecodable pre k u post w [] Hdir Hq Hpre Hu) as Hs.
  destruct (save_all _ (w, [])) as [[] ?]; cbn in *; congruence.
Qed.

End Answers.

Section Routes.
Context `{Pillow} `{Mtcnn} `{DeepFace} `{Werkzeug} `{Uuid}.

(** C18: an oversized [POST /verify] is answered 413 by Flask before the
    handler reads a field, and the disk is untouched. *)
Theorem handle_too_large (req : request) (w : world) :
  req_path req = "/verify" → req_method req = "POST" →
  (MAX_CONTENT_LENGTH < req_content_length req)%Z →
  handle req w = (Ret (RespHttpError 413 RequestEntityTooLarge), w).
Proof.
  intros Hp Hm Hs. unfold handle, allowed_methods. rewrite Hp, Hm.
  rewrite (bool_decide_false (_ = "/")), bool_decide_true by done.
  rewrite bool_decide_false by set_solver. rewrite !bool_decide_false by done.
  unfold verify. rewrite validate_too_large by done. reflexivity.
Qed.


(** C28: the answer to every request other than [POST /verify], with
    the world unchanged: on [/], [GET] and [HEAD] get the text [home]
    returns, [OPTIONS] the methods [GET], [HEAD] and [OPTIONS], any other
    method a 405; on [/verify], [OPTIONS] gets [POST] and [OPTIONS] and
    any method but [POST] a 405; any other path a 404. *)
Theorem handle_routes (req : request) (w : world) :
  ¬ (req_path req = "/verify" ∧ req_method req = "POST") →
  handle req w =
    (Ret (if bool_decide (req_path req = "/") then
            if bool_decide (req_method req = "GET" ∨ req_method req = "HEAD")
            then RespText "Face API running. POST /verify with 5 images (selfie + 4)."
            else if bool_decide (req_method req = "OPTIONS")
            then RespOptions {[ "GET"; "HEAD"; "OPTIONS" ]}
            else RespHttpError 405 MethodNotAllowed
          else if bool_decide (req_path req = "/verify") then
            if bool_decide (req_method req = "OPTIONS")
            then RespOptions {[ "POST"; "OPTIONS" ]}
            else RespHttpError 405 MethodNotAllowed
          else RespHttpError 404 NotFound), w).
Proof.
  intros Hn. unfold handle, allowed_methods.
  case_bool_decide as Hroot.
  - unfold home_text. repeat case_bool_decide; first [reflexivity | exfalso; set_solver | exfalso; intuition congruence].
  - case_bool_decide as Hv; [|done].
    repeat case_bool_decide; first [reflexivity | exfalso; set_solver | exfalso; apply Hn; set_solver].
Qed.

End Routes.

(** ** Concrete runs

    The sample Pillow decodes an upload [[b; h]] as a [10b] x [h] image;
    the scenario detector finds one face of [w/10] x 1 in an image of
    width [w], so a crop's tag is the first byte of its upload; the
    scenario DeepFace answers 0.40 for the candidate of tag 3 and 0.80
    for the others. *)

Definition scenario_mtcnn : Mtcnn := sample_mtcnn (λ w, [mkDetection 0 0 (w / 10) 1]).

Definition scenario_deepface : DeepFace :=
  sample_deepface (λ _ c, Ret (mkVerifyResult
    (Some (PFin (if (c =? 3)%Z then (40 # 100)%Q else (80 # 100)%Q))) (Some "ArcFace"))).

Definition image_upload (name : string) (b : Byte.byte) : upload := mkUpload name [b; Byte.x05].

(** Five decodable uploads; the candidate img2 holds the selfie's face. *)
Definition scenario_request : request :=
  mkRequest "POST" "/verify" 5000
    [("selfie", image_upload "me.jpg" Byte.x02); ("img1", image_upload "a.png" Byte.x01);
     ("img2", image_upload "b.png" Byte.x03); ("img3", image_upload "c.webp" Byte.x04);
     ("img4", image_upload "d.jpeg" Byte.x05)].

(** The same request with img3 not an image. *)
Definition scenario_request_bad_img3 : request :=
  mkRequest "POST" "/verify" 5000
    [("selfie", image_upload "me.jpg" Byte.x02); ("img1", image_upload "a.png" Byte.x01);
     ("img2", image_upload "b.png" Byte.x03); ("img3", mkUpload "c.webp" [Byte.x04]);
     ("img4", image_upload "d.jpeg" Byte.x05)].

Definition score (field : string) (q : Q) : result_entry :=
  REScore field (is_match (Some (PFin q))) (Some (PFin q)) CUSTOM_THRESHOLD (Some "ArcFace").

Section Scenario.
#[local] Existing Instance scenario_deepface.

(** Witness of C1, on the scenario. *)
Lemma verify_leaves_no_files_witness :
  ∃ δ, w_log (@verify _ scenario_mtcnn _ _ _ scenario_request empty_world).2 = w_log empty_world ++ δ.
Proof.
  destruct (@verify_leaves_no_files _ scenario_mtcnn _ _ _ _ scenario_request empty_world eq_refl)
    as (δ & Hlog & _).
  exists δ. exact Hlog.
Defined.

(** Witness of C2: the fields of the scenario's answer. *)
Lemma verify_results_fields_witness :
  map entry_field [score "img1" (80 # 100); score "img2" (40 # 100);
                   score "img3" (80 # 100); score "img4" (80 # 100)] = ["img1"; "img2"; "img3"; "img4"].
Proof.
  refine (proj1 (@verify_results_fields _ scenario_mtcnn _ _ _ scenario_request empty_world _ true _)).
  vm_compute. reflexivity.
Defined.

(** Witness of C5: the scenario's uploads seen by a detector that finds
    no face. *)
Lemma verify_selfie_without_face_witness :
  (@verify _ no_faces _ _ _ scenario_request empty_world).1 = Ret no_face_in_selfie.
Proof.
  apply (verify_selfie_without_face scenario_request empty_world (image_upload "me.jpg" Byte.x02)
           (drop 1 (req_files scenario_request)) (blank 20 5)).
  - vm_compute. reflexivity.
  - apply empty_world_dir.
  - reflexivity.
  - vm_compute. reflexivity.
  - repeat constructor; eexists; vm_compute; reflexivity.
  - reflexivity.
Defined.

(** Witness of C6: img3 is no image; the request fails although the
    selfie has no face for the detector. *)
Lemma verify_undecodable_upload_witness :
  (@verify _ no_faces _ _ _ scenario_request_bad_img3 empty_world).1 = Raise UnidentifiedImageError.
Proof.
  apply (verify_undecodable_upload scenario_request_bad_img3 empty_world
           (take 3 (req_files scenario_request_bad_img3)) "img3" (mkUpload "c.webp" [Byte.x04])
           [("img4", image_upload "d.jpeg" Byte.x05)]).
  - vm_compute. reflexivity.
  - apply empty_world_dir.
  - reflexivity.
  - repeat constructor; eexists; vm_compute; reflexivity.
  - reflexivity.
Defined.

(** Witness of C18. *)
Lemma handle_too_large_witness :
  (@handle _ no_faces _ _ _ (mkRequest "POST" "/verify" (MAX_CONTENT_LENGTH + 1) []) empty_world).1 =
    Ret (RespHttpError 413 RequestEntityTooLarge).
Proof. rewrite handle_too_large; [reflexivity..|]. vm_compute. reflexivity. Defined.


(** Witness of C28: [HEAD /]. *)
Lemma handle_routes_witness :
  @handle _ no_faces _ _ _ (mkRequest "HEAD" "/" 0 []) empty_world =
  (Ret (RespText "Face API running. POST /verify with 5 images (selfie + 4)."), empty_world).
Proof. rewrite (handle_routes (mkRequest "HEAD" "/" 0 [])) by (cbn; intros [? _]; discriminate). reflexivity. Defined.

End Scenario.
