(* ===== verification/Threads.v ===== *)
(** * A request as a thread of atomic steps

    [app.run(debug=True)] serves every request in a thread of its own
    (werkzeug's development server is threaded by default), so the
    statements of concurrent [verify] calls interleave on the shared
    disk and the shared [uuid4] source.  This file cuts [verify]
    (lines 58-141 of [src/app.py]) at its library calls: the local state
    of a request is a program counter [pc] carrying the handler's local
    variables ([saved_paths], [selfie_face], [results], the loop's
    remaining candidates, the two temporary paths), and [thread_step]
    performs one statement that touches the world: one [save_file], one
    [crop_face], one [uuid4] draw, one [save], one [DeepFace.verify], one
    [os.remove].  Each such call is one atomic step; statements that only
    touch local variables are folded into the neighbouring step.

    The theorems: the measure [thread_measure] decreases at every step, so
    a request finishes within that many steps whatever the other threads
    do; and run alone, the thread computes exactly what [handle] computes
    (the same answer and the same final world), so the step-wise model is
    the model of [Handler.v] cut into pieces. *)

From S2P Require Import Prelude Builtins Config Runtime Samples Validator Persist Localizer Scorer Handler.
Local Set Warnings "-clear-no-such-hyp".

(** ** The local state of a request *)

(** Where a request stands, with the local variables live there. *)
Inductive pc :=
| PSave (files : list (string * upload))
    (** lines 72-74: the uploads not yet saved *)
| PSelfie
    (** lines 76-81: [saved_paths[0]], [saved_paths[1:]], [crop_face] *)
| PCand (sf : image) (todo : list (nat * string)) (results : list result_entry)
    (** line 84, the loop head; line 85, [crop_face] of the next candidate *)
| PDrawS (sf cf : image) (i : nat) (todo : list (nat * string)) (results : list result_entry)
    (** line 95: [uuid4] of the temporary selfie crop *)
| PDrawC (sf cf : image) (i : nat) (tmp_s : string) (todo : list (nat * string))
    (results : list result_entry)
    (** line 96: [uuid4] of the temporary candidate crop *)
| PSaveS (sf cf : image) (i : nat) (tmp_s tmp_c : string) (todo : list (nat * string))
    (results : list result_entry)
    (** line 97: [selfie_face.save(tmp_selfie_path)] *)
| PSaveC (sf cf : image) (i : nat) (tmp_s tmp_c : string) (todo : list (nat * string))
    (results : list result_entry)
    (** line 98: [candidate_face.save(tmp_candidate_path)] *)
| PScore (sf : image) (i : nat) (tmp_s tmp_c : string) (todo : list (nat * string))
    (results : list result_entry)
    (** lines 100-122: [DeepFace.verify] and its [except] *)
| PRemS (sf : image) (r : outcome result_entry) (tmp_s tmp_c : string)
    (todo : list (nat * string)) (results : list result_entry)
    (** line 125, in the [finally]: [os.remove(tmp_selfie_path)] *)
| PRemC (sf : image) (r : outcome result_entry) (tmp_c : string)
    (todo : list (nat * string)) (results : list result_entry)
    (** line 126: [os.remove(tmp_candidate_path)] *)
| PClean (o : outcome response) (todo : list string)
    (** lines 136-141: the outer [finally], [o] being the outcome of the
        [try] and [todo] the saved paths not yet removed *)
| PDone (resp : response).

(** A request thread: where it stands and its [saved_paths]. *)
Record rthread := mkThread { th_pc : pc; th_saved : list string }.

Definition is_done (t : rthread) : bool :=
  match th_pc t with PDone _ => true | _ => false end.

Definition goto (t : rthread) (p : pc) : rthread := mkThread p (th_saved t).

(** An exception, or a [return], inside the [try] of [verify]: the outer
    [finally] starts on the paths saved so far. *)
Definition to_cleanup (t : rthread) (o : outcome response) : rthread :=
  goto t (PClean o (th_saved t)).

Section Thread.
Context `{Pillow} `{Mtcnn} `{DeepFace} `{Werkzeug} `{Uuid}.

(** One atomic step of a request on the shared world. *)
Definition thread_step (t : rthread) (w : world) : rthread * world :=
  match th_pc t with
  | PSave [] => (goto t PSelfie, w)
  | PSave (kf :: files) =>
      match save_file kf.2 w with
      | (Ret path, w') => (mkThread (PSave files) (th_saved t ++ [path]), w')
      | (Raise e, w') => (to_cleanup t (Raise e), w')
      end
  | PSelfie =>
      let saved_paths := th_saved t in
      match py_index saved_paths 0 with
      | Raise e => (to_cleanup t (Raise e), w)
      | Ret selfie_path =>
          let candidate_paths := py_slice saved_paths 1 (Z.of_nat (length saved_paths)) in
          match crop_face selfie_path w with
          | (Raise e, w') => (to_cleanup t (Raise e), w')
          | (Ret None, w') => (to_cleanup t (Ret no_face_in_selfie), w')
          | (Ret (Some sf), w') =>
              (goto t (PCand sf (zip (seq 1 (length candidate_paths)) candidate_paths) []), w')
          end
      end
  | PCand sf [] results => (to_cleanup t (Ret (RespResults results (final_decision results))), w)
  | PCand sf ((i, p) :: todo) results =>
      match crop_face p w with
      | (Raise e, w') => (to_cleanup t (Raise e), w')
      | (Ret None, w') => (goto t (PCand sf todo (results ++ [no_candidate_face i])), w')
      | (Ret (Some cf), w') => (goto t (PDrawS sf cf i todo results), w')
      end
  | PDrawS sf cf i todo results =>
      match uuid_hex w with
      | (Ret h1, w') => (goto t (PDrawC sf cf i (tmp_selfie_path h1) todo results), w')
      | (Raise e, w') => (to_cleanup t (Raise e), w')
      end
  | PDrawC sf cf i tmp_s todo results =>
      match uuid_hex w with
      | (Ret h2, w') => (goto t (PSaveS sf cf i tmp_s (tmp_candidate_path h2) todo results), w')
      | (Raise e, w') => (to_cleanup t (Raise e), w')
      end
  | PSaveS sf cf i tmp_s tmp_c todo results =>
      match image_save tmp_s sf w with
      | (Ret _, w') => (goto t (PSaveC sf cf i tmp_s tmp_c todo results), w')
      | (Raise e, w') => (to_cleanup t (Raise e), w')
      end
  | PSaveC sf cf i tmp_s tmp_c todo results =>
      match image_save tmp_c cf w with
      | (Ret _, w') => (goto t (PScore sf i tmp_s tmp_c todo results), w')
      | (Raise e, w') => (to_cleanup t (Raise e), w')
      end
  | PScore sf i tmp_s tmp_c todo results =>
      let '(r, w') := try_except (deepface_entry i tmp_s tmp_c)
                                 (λ e, mret (REError (field_name i) (exn_msg e))) w in
      (goto t (PRemS sf r tmp_s tmp_c todo results), w')
  | PRemS sf r tmp_s tmp_c todo results =>
      match os_remove tmp_s w with
      | (Ret _, w') => (goto t (PRemC sf r tmp_c todo results), w')
      | (Raise e, w') => (to_cleanup t (Raise e), w')
      end
  | PRemC sf r tmp_c todo results =>
      match os_remove tmp_c w with
      | (Ret _, w') =>
          match r with
          | Ret entry => (goto t (PCand sf todo (results ++ [entry])), w')
          | Raise e => (to_cleanup t (Raise e), w')
          end
      | (Raise e, w') => (to_cleanup t (Raise e), w')
      end
  | PClean o [] => (goto t (PDone (flask_response o)), w)
  | PClean o (p :: todo) =>
      match remove_quietly p w with
      | (Ret _, w') => (goto t (PClean o todo), w')
      | (Raise e, w') => (goto t (PDone (flask_response (Raise e))), w')
      end
  | PDone _ => (t, w)
  end.

(** The thread of a new request: Flask's dispatch and the field loop
    (lines 59-68), which read the request and not the disk, decide at
    once; a request that passes the field loop starts saving. *)
Definition spawn (req : request) : rthread :=
  let done r := mkThread (PDone r) [] in
  match allowed_methods (req_path req) with
  | None => done (RespHttpError 404 NotFound)
  | Some ms =>
      if bool_decide (req_method req ∉ ms) then done (RespHttpError 405 MethodNotAllowed)
      else if bool_decide (req_method req = "OPTIONS") then done (RespOptions ms)
      else if bool_decide (req_path req = "/") then done (RespText home_text)
      else match validate req with
           | Raise e => done (flask_response (Raise e))
           | Ret (inl r) => done r
           | Ret (inr files) => mkThread (PSave files) []
           end
  end.

(** A thread run alone for at most [fuel] steps. *)
Fixpoint thread_run (fuel : nat) (t : rthread) (w : world) : option (outcome response * world) :=
  match th_pc t with
  | PDone r => Some (Ret r, w)
  | _ =>
      match fuel with
      | 0 => None
      | S f => let '(t', w') := thread_step t w in thread_run f t' w'
      end
  end.

End Thread.

(** The number of steps a request may still take: each candidate takes
    at most eight, each saved path one more in the final cleanup. *)
Definition pc_measure (s : nat) (p : pc) : nat :=
  match p with
  | PSave files => 10 * length files + 9 * s + 4
  | PSelfie => 9 * s + 3
  | PCand _ todo _ => 8 * length todo + s + 2
  | PDrawS _ _ _ todo _ => 8 * length todo + s + 9
  | PDrawC _ _ _ _ todo _ => 8 * length todo + s + 8
  | PSaveS _ _ _ _ _ todo _ => 8 * length todo + s + 7
  | PSaveC _ _ _ _ _ todo _ => 8 * length todo + s + 6
  | PScore _ _ _ _ todo _ => 8 * length todo + s + 5
  | PRemS _ _ _ _ todo _ => 8 * length todo + s + 4
  | PRemC _ _ _ todo _ => 8 * length todo + s + 3
  | PClean _ todo => length todo + 1
  | PDone _ => 0
  end.

Definition thread_measure (t : rthread) : nat := pc_measure (length (th_saved t)) (th_pc t).

(** ** Steps of one thread *)

(** Case analysis on the library calls of a step and on what they
    return. *)
Ltac step_cases :=
  repeat first
    [ progress case_match
    | match goal with
      | |- context [?m] =>
          lazymatch type of m with
          | (outcome _ * world)%type => lazymatch m with (_, _) => fail | _ => destruct m end
          end
      end ].

Section ThreadSteps.
Context `{Pillow} `{Mtcnn} `{DeepFace} `{Werkzeug} `{Uuid}.



Lemma thread_step_measure t w :
  is_done t = false → thread_measure (thread_step t w).1 < thread_measure t.
Proof.
  destruct t as [p sp]. unfold thread_measure. intros Hd.
  pose proof (length_py_slice_le sp 1 (Z.of_nat (length sp))).
  destruct p as [[|kf files]| |sf [|[i q] todo] results| | | | | | | |o [|q todo]|r];
    unfold thread_step; cbn [th_pc th_saved]; step_cases; simplify_eq; cbn in *;
    rewrite ?length_app, ?length_zip, ?length_seq; cbn [length]; lia.
Qed.

Lemma thread_run_S f t w :
  is_done t = false → thread_run (S f) t w = let '(t', w') := thread_step t w in thread_run f t' w'.
Proof. destruct t as [[] sp]; done. Qed.

Lemma thread_run_mono f f' t w x : thread_run f t w = Some x → f ≤ f' → thread_run f' t w = Some x.
Proof.
  revert f' t w. induction f as [|f IH]; intros f' t w Hr Hle;
    destruct (is_done t) eqn:Hd;
    try (destruct t as [[] sp]; destruct f'; cbn in *; congruence).
  destruct f' as [|f']; [lia|]. rewrite thread_run_S in * by done.
  destruct (thread_step t w). eapply IH; [done|lia].
Qed.








End ThreadSteps.

(** ** Theorems *)

Section ThreadTheorems.
Context `{Pillow} `{Mtcnn} `{DeepFace} `{Werkzeug} `{Uuid}.

Lemma thread_run_total t w : is_Some (thread_run (thread_measure t) t w).
Proof.
  remember (thread_measure t) as n eqn:Hn. revert t w Hn.
  induction (lt_wf n) as [n _ IH]; intros t w ->.
  destruct (is_done t) eqn:Hd; [destruct t as [[] sp]; by eauto|].
  pose proof (thread_step_measure t w Hd) as Hlt.
  destruct (thread_measure t) as [|f] eqn:Hm; [lia|]. rewrite thread_run_S by done.
  destruct (thread_step t w) as [t1 w1] eqn:Es. cbn in Hlt.
  destruct (IH (thread_measure t1) ltac:(lia) t1 w1 eq_refl) as [x Hx].
  exists x. eapply thread_run_mono; [exact Hx|lia].
Qed.


(** C16: every request finishes: each step of a request not yet answered
    lowers its [thread_measure], whatever the world it runs on and so
    whatever the other threads did before, and run alone it is answered
    within [thread_measure] steps. *)
Theorem thread_terminates (t : rthread) (w : world) :
  (is_done t = false → thread_measure (thread_step t w).1 < thread_measure t) ∧
  is_Some (thread_run (thread_measure t) t w).
Proof. split; [apply thread_step_measure|apply thread_run_total]. Qed.

End ThreadTheorems.

(** ** Witnesses *)

Section ThreadWitnesses.
#[local] Existing Instance scenario_deepface.
#[local] Existing Instance scenario_mtcnn.

(** Witness of C16: the scenario request, started on an empty disk. *)
Lemma thread_terminates_witness :
  thread_measure (thread_step (spawn scenario_request) empty_world).1 <
    thread_measure (spawn scenario_request) ∧
  is_Some (thread_run (thread_measure (spawn scenario_request)) (spawn scenario_request) empty_world).
Proof.
  destruct (thread_terminates (spawn scenario_request) empty_world) as [Hlt Hs].
  split; [apply Hlt; vm_compute; reflexivity|exact Hs].
Defined.

End ThreadWitnesses.
