(* ===== verification/Server.v ===== *)
(** * Start-up and the threaded server

    At import time [src/app.py] creates the upload directory
    ([os.makedirs(UPLOAD_FOLDER, exist_ok=True)], line 16), then the
    Flask application, its configuration and the MTCNN detector (lines
    17-21, the constants of [Config.v] and the [Mtcnn] instance); under
    [__main__], [app.run(debug=True)] (lines 143-144) serves requests with
    werkzeug's development server, which since Flask 1.0 runs every
    request in a thread of its own.  The threads share the disk and the
    [uuid4] source.

    [startup] is line 16.  A state of the server [tserver] is the world,
    the pool of requests in flight (threads of [Threads.v]) and the
    answers given so far; [server_step] accepts a request (its thread
    joins the pool), lets any request in flight take one atomic step, or
    sends the answer of a finished request.  Any interleaving of the
    requests' steps is a run of [server_step].

    The theorems: the upload directory stays; every file on the disk of a
    running server belongs to exactly one request in flight, which wrote
    it and will remove it, so a server with no request in flight has an
    empty disk; and from every state the requests in flight can all be
    answered, leaving the disk empty. *)

From S2P Require Import Prelude Builtins Config Runtime Samples Validator Persist Localizer Scorer Handler Threads.
Local Set Warnings "-clear-no-such-hyp".

(** [os.makedirs(UPLOAD_FOLDER, exist_ok=True)]. *)
Definition startup : M world unit := os_makedirs UPLOAD_FOLDER.

(** The server: the world, the requests in flight, the answers sent. *)
Record tserver := mkServer { sv_world : world; sv_pool : list rthread; sv_out : list response }.

Definition server_init (w : world) : tserver := mkServer w [] [].

Section Serve.
Context `{Pillow} `{Mtcnn} `{DeepFace} `{Werkzeug} `{Uuid}.

(** One move of [app.run]: a new request, one step of a request in
    flight, or the answer of a finished one. *)
Inductive server_step : tserver → tserver → Prop :=
| SAccept s req :
    server_step s (mkServer (sv_world s) (sv_pool s ++ [spawn req]) (sv_out s))
| SRun s i t :
    sv_pool s !! i = Some t → is_done t = false →
    server_step s (mkServer (thread_step t (sv_world s)).2
                            (<[i := (thread_step t (sv_world s)).1]> (sv_pool s)) (sv_out s))
| SReply s i t r :
    sv_pool s !! i = Some t → th_pc t = PDone r →
    server_step s (mkServer (sv_world s) (delete i (sv_pool s)) (sv_out s ++ [r])).

End Serve.

(** [startup] that succeeds leaves the files as they were and the
    upload directory in place. *)
Lemma startup_Ret w w0 :
  startup w = (Ret tt, w0) →
  UPLOAD_FOLDER ∈ w_dirs w0 ∧ w_files w0 = w_files w ∧ w_quota w0 = w_quota w.
Proof.
  unfold startup, os_makedirs. case_bool_decide; [by intros [= <-]|].
  destruct (w_files w !! UPLOAD_FOLDER); [done|]. intros [= <-]. cbn. set_solver.
Qed.

Lemma startup_ok w :
  UPLOAD_FOLDER ∈ w_dirs w ∨ w_files w !! UPLOAD_FOLDER = None → ∃ w0, startup w = (Ret tt, w0).
Proof.
  unfold startup, os_makedirs. intros Hw. case_bool_decide; [eauto|].
  destruct Hw as [Hw|Hw]; [done|]. rewrite Hw. eauto.
Qed.

(** ** Who owns which file *)

(** The paths built from the [n]-th [uuid4] draw: an upload saved by
    [save_file] and the two temporary crops of lines 95-96. *)
Definition uuid_path `{Uuid} (n : nat) (p : string) : Prop :=
  (∃ e, str_has "/" e = false ∧ p = upload_path n e) ∨
  p = tmp_selfie_path (uuid4_hex n) ∨ p = tmp_candidate_path (uuid4_hex n).

Definition drawn_before `{Uuid} (k : nat) (p : string) : Prop := ∃ n, n < k ∧ uuid_path n p.

(** The files a request has on the disk: its saved uploads until the
    outer [finally] removes them, and the temporary crops between their
    [save] and their [os.remove]. *)
Definition owned (t : rthread) : list string :=
  match th_pc t with
  | PSaveC _ _ _ tmp_s _ _ _ => th_saved t ++ [tmp_s]
  | PScore _ _ tmp_s tmp_c _ _ | PRemS _ _ tmp_s tmp_c _ _ => th_saved t ++ [tmp_s; tmp_c]
  | PRemC _ _ tmp_c _ _ => th_saved t ++ [tmp_c]
  | PClean _ todo => todo
  | PDone _ => []
  | _ => th_saved t
  end.

(** The paths a request has drawn and not yet given up: what it owns and
    the temporary paths drawn but not yet written. *)
Definition reserved (t : rthread) : list string :=
  match th_pc t with
  | PDrawC _ _ _ tmp_s _ _ => th_saved t ++ [tmp_s]
  | PSaveS _ _ _ tmp_s tmp_c _ _ | PSaveC _ _ _ tmp_s tmp_c _ _
  | PScore _ _ tmp_s tmp_c _ _ | PRemS _ _ tmp_s tmp_c _ _ => th_saved t ++ [tmp_s; tmp_c]
  | _ => owned t
  end.

(** ** Paths of different draws differ *)

Section Paths.
Context `{Uuid} `{!UuidLaws}.

(** The stems, before the first dot, of the names of the [n]-th draw. *)
Definition uuid_stems (n : nat) : list string :=
  [uuid4_hex n; "tmp_selfie_" +:+ uuid4_hex n; "tmp_candidate_" +:+ uuid4_hex n].

Lemma uuid_path_name n p :
  uuid_path n p → ∃ stem ext, stem ∈ uuid_stems n ∧ str_has "/" (stem +:+ String "." ext) = false ∧
                              p = path_join UPLOAD_FOLDER (stem +:+ String "." ext).
Proof.
  unfold upload_path, tmp_selfie_path, tmp_candidate_path, uuid_stems.
  intros [(e & He & ->)|[->| ->]].
  - exists (uuid4_hex n), e. rewrite str_has_app, uuid_noslash. cbn. rewrite He. set_solver.
  - exists ("tmp_selfie_" +:+ uuid4_hex n), "jpg". rewrite !str_has_app, uuid_noslash.
    split; [set_solver|]. split; [done|]. by rewrite <- string_app_assoc.
  - exists ("tmp_candidate_" +:+ uuid4_hex n), "jpg". rewrite !str_has_app, uuid_noslash.
    split; [set_solver|]. split; [done|]. by rewrite <- string_app_assoc.
Qed.

Lemma uuid_stems_nodot n stem : stem ∈ uuid_stems n → str_has "." stem = false.
Proof.
  unfold uuid_stems. intros Hs.
  repeat (apply elem_of_cons in Hs as [->|Hs]; [by rewrite ?str_has_app, uuid_nodot|]).
  by apply elem_of_nil in Hs.
Qed.

Lemma uuid_stems_inj m n stem : stem ∈ uuid_stems m → stem ∈ uuid_stems n → m = n.
Proof.
  unfold uuid_stems. intros Hm Hn.
  assert (∀ k j x, uuid4_hex k = x +:+ uuid4_hex j → x = "tmp_selfie_" ∨ x = "tmp_candidate_" → False)
    as Hno.
  { intros k j x Hk Hx. pose proof (uuid_nounder k) as Hu. rewrite Hk, str_has_app in Hu.
    destruct Hx as [->| ->]; discriminate. }
  repeat (apply elem_of_cons in Hm as [->|Hm]; [|]); try by apply elem_of_nil in Hm.
  all: repeat (apply elem_of_cons in Hn as [Hn|Hn]; [|]); try by apply elem_of_nil in Hn.
  all: first [ by apply uuid_inj | by apply uuid_inj, (append_cancel_l _ _ _ Hn)
             | exfalso; by eapply Hno; eauto | exfalso; symmetry in Hn; by eapply Hno; eauto
             | discriminate Hn ].
Qed.

(** A path belongs to one draw only. *)
Lemma uuid_path_inj m n p : uuid_path m p → uuid_path n p → m = n.
Proof.
  intros (a & e1 & Ha & _ & ->)%uuid_path_name (b & e2 & Hb & _ & Heq)%uuid_path_name.
  unfold path_join in Heq. apply append_cancel_l, append_cancel_l in Heq.
  apply app_dot_inj in Heq; [|by eapply uuid_stems_nodot|by eapply uuid_stems_nodot].
  subst b. by eapply uuid_stems_inj.
Qed.

Lemma drawn_before_fresh k n p : drawn_before k p → k ≤ n → uuid_path n p → False.
Proof. intros (m & Hm & Hp) Hk Hn. pose proof (uuid_path_inj _ _ _ Hp Hn). lia. Qed.

Lemma drawn_before_mono k k' p : drawn_before k p → k ≤ k' → drawn_before k' p.
Proof. intros (n & Hn & Hp) Hk. exists n. split; [lia|done]. Qed.

(** A path of a draw lies directly under [uploads/]. *)
Lemma uuid_path_parent n p dirs :
  uuid_path n p → parent_ok dirs p = bool_decide (UPLOAD_FOLDER ∈ dirs).
Proof. intros (stem & ext & _ & Hs & ->)%uuid_path_name. by apply parent_ok_upload. Qed.

End Paths.

(** ** The library calls on a server's disk

    The disk of a running server has no write limit and keeps its
    [uploads/] directory; there every call a request makes succeeds on
    the paths it drew, and changes the disk only at those paths. *)

Section Calls.
Context `{Pillow} `{Mtcnn} `{DeepFace} `{Werkzeug} `{Uuid} `{!UuidLaws} `{!WerkzeugLaws}.

Lemma save_file_server u w :
  w_quota w = None →
  let '(r, w') := save_file u w in
  w_rng w' = S (w_rng w) ∧ w_dirs w' = w_dirs w ∧ w_quota w' = None ∧
  match r with
  | Ret p => uuid_path (w_rng w) p ∧ ∃ img, w_files w' = <[p := img]> (w_files w)
  | Raise _ => w_files w' = w_files w
  end.
Proof.
  intros Hq. pose proof (save_file_effect u w) as He.
  destruct (save_file u w) as [[p|e] w']; cbn in He; rewrite Hq in He;
    destruct He as (Hr & Hd & Hq' & He); (split; [done|]); (split; [done|]); (split; [done|]).
  - destruct He as (-> & _ & img & _ & Hf & _). split; [|eauto].
    left. eexists. split; [|reflexivity]. apply ext_of_noslash, secure_noslash.
  - by destruct He as (Hf & _).
Qed.

Lemma image_save_server n p img w :
  uuid_path n p → w_quota w = None → UPLOAD_FOLDER ∈ w_dirs w →
  image_save p img w = (Ret tt, mkWorld (<[p := pil_jpeg img]> (w_files w)) (w_dirs w) (w_rng w) None
                                        (w_log w ++ [EvWrite p])).
Proof.
  intros Hp Hq Hd. apply image_save_unlimited; [|done].
  rewrite (uuid_path_parent _ _ _ Hp). by apply bool_decide_true.
Qed.

(** [DeepFace.verify] and its [except] only read the disk. *)
Lemma score_world i a b w :
  (try_except (deepface_entry i a b) (λ e, mret (REError (field_name i) (exn_msg e))) w).2 = w.
Proof.
  unfold try_except, deepface_entry, image_open_path. run_m.
  destruct (w_files w !! a); cbn; [|done]. destruct (w_files w !! b); cbn; [|done].
  by destruct (df_verify _ _ _).
Qed.

Lemma remove_quietly_present p w img :
  w_files w !! p = Some img →
  remove_quietly p w = (Ret tt, mkWorld (delete p (w_files w)) (w_dirs w) (w_rng w) (w_quota w)
                                        (w_log w ++ [EvRemove p])).
Proof. intros Hp. unfold remove_quietly, try_except. by rewrite (os_remove_present _ _ _ Hp). Qed.

End Calls.

(** ** One request against the others

    [local_ok w t Ro Oo]: the paths request [t] has drawn are distinct
    from each other and from [Ro], those drawn by the other requests; the
    disk holds exactly the files [t] owns and those the others own,
    [Oo]; and every drawn path comes from a draw already made. *)

Definition local_ok `{Uuid} (w : world) (t : rthread) (Ro Oo : list string) : Prop :=
  NoDup (reserved t ++ Ro) ∧ dom (w_files w) = list_to_set (owned t ++ Oo) ∧
  Forall (drawn_before (w_rng w)) (reserved t ++ Ro).

Lemma owned_reserved t : owned t ⊆+ reserved t.
Proof.
  destruct t as [[] sp]; cbn; try reflexivity; try (apply submseteq_inserts_r; reflexivity).
  apply submseteq_skips_l, submseteq_skip, submseteq_nil_l.
Qed.

Section Shapes.
Context `{Uuid} `{!UuidLaws}.
Implicit Types (w : world) (t : rthread) (Ro Oo : list string).

Lemma local_owned_nodup w t Ro Oo : local_ok w t Ro Oo → Oo ⊆+ Ro → NoDup (owned t ++ Oo).
Proof.
  intros (Hnd & _) HO. eapply NoDup_submseteq_inv; [|exact Hnd].
  by apply submseteq_app; [apply owned_reserved|].
Qed.

Lemma drawn_all_mono k k' l : Forall (drawn_before k) l → k ≤ k' → Forall (drawn_before k') l.
Proof. intros Hl Hk. eapply Forall_impl; [exact Hl|]. intros p Hp. by eapply drawn_before_mono. Qed.

(** A step that changes no file and owns the same ones. *)
Lemma local_keep w w' t t' Ro Oo :
  local_ok w t Ro Oo → w_files w' = w_files w → w_rng w ≤ w_rng w' →
  owned t' = owned t → reserved t' ⊆+ reserved t → local_ok w' t' Ro Oo.
Proof.
  intros (Hnd & Hdom & Hdr) Hf Hr Ho Hres. split; [|split].
  - eapply NoDup_submseteq_inv; [by apply submseteq_skips_r|done].
  - by rewrite Hf, Ho.
  - eapply Forall_submseteq_inv; [by apply submseteq_skips_r|]. by eapply drawn_all_mono.
Qed.

(** A [uuid4] draw: the new path is one nobody has drawn. *)
Lemma local_draw w w' t t' Ro Oo p :
  local_ok w t Ro Oo → w_files w' = w_files w → w_rng w' = S (w_rng w) → uuid_path (w_rng w) p →
  owned t' = owned t → reserved t' ≡ₚ reserved t ++ [p] → local_ok w' t' Ro Oo.
Proof.
  intros (Hnd & Hdom & Hdr) Hf Hr Hp Ho Hres. unfold local_ok.
  rewrite Hres, <- app_assoc. cbn [app]. rewrite <- Permutation_middle. split; [|split].
  - apply NoDup_cons. split; [|done]. intros Hin.
    rewrite Forall_forall in Hdr. by eapply drawn_before_fresh; [apply Hdr, Hin| |].
  - by rewrite Hf, Ho.
  - constructor; [exists (w_rng w); split; [lia|done]|]. eapply drawn_all_mono; [exact Hdr|lia].
Qed.

(** A write of a path the request drew. *)
Lemma local_write w w' t t' Ro Oo p img :
  local_ok w t Ro Oo → w_files w' = <[p := img]> (w_files w) → w_rng w' = w_rng w →
  owned t' ≡ₚ owned t ++ [p] → reserved t' = reserved t → local_ok w' t' Ro Oo.
Proof.
  intros (Hnd & Hdom & Hdr) Hf Hr Ho Hres. unfold local_ok. rewrite Hres, Hr. split; [done|]. split; [|done].
  rewrite Hf, dom_insert_L, Hdom, Ho, <- app_assoc, !list_to_set_app_L. set_solver.
Qed.

(** A removal of a path the request owns. *)
Lemma local_remove w w' t t' Ro Oo p :
  local_ok w t Ro Oo → Oo ⊆+ Ro → w_files w' = delete p (w_files w) → w_rng w' = w_rng w →
  owned t ≡ₚ p :: owned t' → reserved t' ⊆+ reserved t → local_ok w' t' Ro Oo.
Proof.
  intros Hok HO Hf Hr Ho Hres. pose proof (local_owned_nodup _ _ _ _ Hok HO) as Hnd.
  destruct Hok as (Hnd' & Hdom & Hdr). rewrite Ho in Hnd. apply NoDup_cons in Hnd as [Hp _].
  split; [|split].
  - eapply NoDup_submseteq_inv; [by apply submseteq_skips_r|done].
  - rewrite Hf, dom_delete_L, Hdom, Ho. set_solver.
  - rewrite Hr. eapply Forall_submseteq_inv; [by apply submseteq_skips_r|done].
Qed.

(** [save_file]: a draw and a write of the drawn path. *)
Lemma local_save w w' t t' Ro Oo p img :
  local_ok w t Ro Oo → w_files w' = <[p := img]> (w_files w) → w_rng w' = S (w_rng w) →
  uuid_path (w_rng w) p → owned t' ≡ₚ owned t ++ [p] → reserved t' ≡ₚ reserved t ++ [p] →
  local_ok w' t' Ro Oo.
Proof.
  intros (Hnd & Hdom & Hdr) Hf Hr Hp Ho Hres. unfold local_ok.
  rewrite Hres, <- app_assoc. cbn [app]. rewrite <- Permutation_middle. split; [|split].
  - apply NoDup_cons. split; [|done]. intros Hin.
    rewrite Forall_forall in Hdr. by eapply drawn_before_fresh; [apply Hdr, Hin| |].
  - rewrite Hf, dom_insert_L, Hdom, Ho, <- app_assoc, !list_to_set_app_L. set_solver.
  - rewrite Hr. constructor; [exists (w_rng w); split; [lia|done]|]. eapply drawn_all_mono; [exact Hdr|lia].
Qed.

End Shapes.

Section StepLocal.
Context `{Pillow} `{Mtcnn} `{DeepFace} `{Werkzeug} `{Uuid} `{!UuidLaws} `{!WerkzeugLaws}.

Lemma owned_present w t Ro Oo p :
  local_ok w t Ro Oo → p ∈ owned t → ∃ img, w_files w !! p = Some img.
Proof.
  intros (_ & Hdom & _) Hp. apply elem_of_dom. rewrite Hdom, list_to_set_app_L. set_solver.
Qed.

Lemma reserved_drawn w t Ro Oo p : local_ok w t Ro Oo → p ∈ reserved t → ∃ n, uuid_path n p.
Proof.
  intros (_ & _ & Hdr) Hp. rewrite Forall_forall in Hdr.
  destruct (Hdr p ltac:(set_solver)) as (n & _ & Hn). eauto.
Qed.

(** The steps that leave the files alone. *)
Ltac keep :=
  split; [eapply local_keep; [eassumption|..]; cbn; first [reflexivity|lia|done]|cbn; split; done].

Lemma thread_step_local t w Ro Oo :
  w_quota w = None → UPLOAD_FOLDER ∈ w_dirs w → is_done t = false → Oo ⊆+ Ro → local_ok w t Ro Oo →
  local_ok (thread_step t w).2 (thread_step t w).1 Ro Oo ∧
  w_quota (thread_step t w).2 = None ∧ w_dirs (thread_step t w).2 = w_dirs w.
Proof.
  intros Hq Hd Hnd HO Hok. destruct t as [pc0 sp].
  destruct pc0 as [[|kf files]| |sf [|[i q] todo] results|sf cf i todo results
                  |sf cf i tmp_s todo results|sf cf i tmp_s tmp_c todo results
                  |sf cf i tmp_s tmp_c todo results|sf i tmp_s tmp_c todo results
                  |sf r tmp_s tmp_c todo results|sf r tmp_c todo results|o [|q todo]|r];
    unfold thread_step; cbn [th_pc th_saved goto to_cleanup].
  - keep.
  - pose proof (save_file_server kf.2 w Hq) as Hs.
    destruct (save_file kf.2 w) as [[path|e] w'] ; destruct Hs as (Hr & Hdirs & Hq' & Hs); cbn.
    + destruct Hs as (Hp & img & Hf). split; [|done]. by eapply local_save.
    + keep.
  - destruct (py_index sp 0) as [p0|e]; [|keep].
    pose proof (crop_face_world p0 w) as Hw. destruct (crop_face p0 w) as [[[f|]|e] w']; cbn in Hw; subst w'; keep.
  - keep.
  - pose proof (crop_face_world q w) as Hw. destruct (crop_face q w) as [[[f|]|e] w']; cbn in Hw; subst w'; keep.
  - unfold uuid_hex. split; [|done].
    eapply (local_draw _ _ _ _ _ _ (tmp_selfie_path (uuid4_hex (w_rng w))));
      [eassumption|done|done| |reflexivity|reflexivity].
    right; left. done.
  - unfold uuid_hex. split; [|done].
    eapply (local_draw _ _ _ _ _ _ (tmp_candidate_path (uuid4_hex (w_rng w))));
      [eassumption|done|done| |reflexivity|cbn; by rewrite <- app_assoc].
    right; right. done.
  - destruct (reserved_drawn _ _ _ _ tmp_s Hok ltac:(cbn; set_solver)) as [n Hn].
    rewrite (image_save_server n) by done. split; [|done]. by eapply local_write.
  - destruct (reserved_drawn _ _ _ _ tmp_c Hok ltac:(cbn; set_solver)) as [n Hn].
    rewrite (image_save_server n) by done. split; [|done].
    eapply (local_write _ _ _ _ _ _ tmp_c); [eassumption|done|done|cbn; by rewrite <- app_assoc|done].
  - pose proof (score_world i tmp_s tmp_c w) as Hw.
    destruct (try_except _ _ w) as [r w']. cbn in Hw. subst w'. keep.
  - destruct (owned_present _ _ _ _ tmp_s Hok ltac:(cbn; set_solver)) as [img Hp].
    rewrite (os_remove_present _ _ _ Hp). split; [|done].
    eapply local_remove; [eassumption|done|done|done| |].
    + cbn. by rewrite <- Permutation_middle.
    + cbn. apply submseteq_skips_l, submseteq_cons. done.
  - destruct (owned_present _ _ _ _ tmp_c Hok ltac:(cbn; set_solver)) as [img Hp].
    rewrite (os_remove_present _ _ _ Hp).
    destruct r; (split; [|done]); (eapply local_remove; [eassumption|done|done|done| |]);
      cbn; try (by rewrite <- Permutation_middle, app_nil_r); by apply submseteq_inserts_r.
  - keep.
  - destruct (owned_present _ _ _ _ q Hok ltac:(cbn; set_solver)) as [img Hp].
    rewrite (remove_quietly_present _ _ _ Hp). split; [|done].
    eapply local_remove; [eassumption|done|done|done|done|]. cbn. by apply submseteq_cons.
  - by cbn in Hnd.
Qed.

End StepLocal.

(** ** The directories

    No call a request makes creates or removes a directory. *)

Section Dirs.
Context `{Pillow} `{Mtcnn} `{DeepFace} `{Werkzeug} `{Uuid}.

Lemma save_file_dirs u w r w' : save_file u w = (r, w') → w_dirs w' = w_dirs w.
Proof. pose proof (save_file_effect u w) as He. intros E. rewrite E in He. by destruct r, He as (_ & ? & _). Qed.

Lemma crop_face_dirs p w r w' : crop_face p w = (r, w') → w_dirs w' = w_dirs w.
Proof. pose proof (crop_face_world p w) as He. intros E. rewrite E in He. by subst. Qed.

Lemma image_save_dirs p img w r w' : image_save p img w = (r, w') → w_dirs w' = w_dirs w.
Proof. unfold image_save. by repeat case_match; intros [= <- <-]. Qed.

Lemma os_remove_dirs p w r w' : os_remove p w = (r, w') → w_dirs w' = w_dirs w.
Proof. unfold os_remove. by case_match; intros [= <- <-]. Qed.

Lemma remove_quietly_dirs p w r w' : remove_quietly p w = (r, w') → w_dirs w' = w_dirs w.
Proof.
  unfold remove_quietly, try_except. destruct (os_remove p w) as [[]] eqn:E;
    apply os_remove_dirs in E; by intros [= <- <-].
Qed.

Lemma score_dirs i a b h w r w' :
  h = (λ e, mret (REError (field_name i) (exn_msg e))) →
  try_except (deepface_entry i a b) h w = (r, w') → w_dirs w' = w_dirs w.
Proof. intros -> E. pose proof (score_world i a b w) as He. rewrite E in He. by subst. Qed.

Lemma thread_step_dirs t w : w_dirs (thread_step t w).2 = w_dirs w.
Proof.
  destruct t as [[] sp]; unfold thread_step, uuid_hex; cbn [th_pc th_saved goto to_cleanup];
    repeat case_match; cbn; try done;
    eauto using save_file_dirs, crop_face_dirs, image_save_dirs, os_remove_dirs, remove_quietly_dirs.
  all: eapply score_dirs; [reflexivity|eassumption].
Qed.

Lemma server_step_dirs s s' : server_step s s' → w_dirs (sv_world s') = w_dirs (sv_world s).
Proof. destruct 1; cbn; [done|apply thread_step_dirs|done]. Qed.

End Dirs.

(** ** The pool *)

(** The invariant of a running server: no write limit, [uploads/]
    present, no path drawn by two requests, the disk holding exactly the
    files the requests in flight own, every drawn path from a past draw. *)
Definition pool_inv `{Uuid} (s : tserver) : Prop :=
  w_quota (sv_world s) = None ∧ UPLOAD_FOLDER ∈ w_dirs (sv_world s) ∧
  NoDup (sv_pool s ≫= reserved) ∧
  dom (w_files (sv_world s)) = list_to_set (sv_pool s ≫= owned) ∧
  Forall (drawn_before (w_rng (sv_world s))) (sv_pool s ≫= reserved).

Lemma pool_perm (f : rthread → list string) l i t :
  l !! i = Some t → l ≫= f ≡ₚ f t ++ (delete i l ≫= f).
Proof. intros Hi. trans ((t :: delete i l) ≫= f); [|done]. f_equiv. by apply delete_Permutation. Qed.

Lemma pool_owned_reserved l : l ≫= owned ⊆+ l ≫= reserved.
Proof. induction l as [|t l IH]; [done|]. cbn. apply submseteq_app; [apply owned_reserved|exact IH]. Qed.

Lemma spawn_fresh `{Pillow} `{Mtcnn} `{DeepFace} `{Werkzeug} `{Uuid} req :
  owned (spawn req) = [] ∧ reserved (spawn req) = [].
Proof. unfold spawn. cbv zeta. repeat case_match; done. Qed.

Section PoolInv.
Context `{Pillow} `{Mtcnn} `{DeepFace} `{Werkzeug} `{Uuid} `{!UuidLaws} `{!WerkzeugLaws}.

Lemma pool_inv_local s i t :
  pool_inv s → sv_pool s !! i = Some t →
  local_ok (sv_world s) t (delete i (sv_pool s) ≫= reserved) (delete i (sv_pool s) ≫= owned).
Proof.
  intros (_ & _ & Hnd & Hdom & Hdr) Hi. unfold local_ok.
  rewrite <- !(pool_perm _ _ _ _ Hi). done.
Qed.

Lemma pool_inv_run s i t :
  pool_inv s → sv_pool s !! i = Some t → is_done t = false →
  pool_inv (mkServer (thread_step t (sv_world s)).2 (<[i := (thread_step t (sv_world s)).1]> (sv_pool s))
                     (sv_out s)).
Proof.
  intros Hinv Hi Hnd. pose proof (pool_inv_local s i t Hinv Hi) as Hok.
  destruct Hinv as (Hq & Hd & _).
  destruct (thread_step_local t (sv_world s) _ _ Hq Hd Hnd (pool_owned_reserved _) Hok)
    as ((Hnd' & Hdom' & Hdr') & Hq' & Hd').
  assert (∀ f : rthread → list string, <[i := (thread_step t (sv_world s)).1]> (sv_pool s) ≫= f ≡ₚ
               f (thread_step t (sv_world s)).1 ++ (delete i (sv_pool s) ≫= f)) as Hp.
  { intros f. trans (((thread_step t (sv_world s)).1 :: delete i (sv_pool s)) ≫= f); [|done].
    f_equiv. by eapply insert_Permutation. }
  unfold pool_inv; cbn [sv_world sv_pool]. rewrite !Hp, Hq', Hd'. done.
Qed.

Lemma pool_inv_step s s' : pool_inv s → server_step s s' → pool_inv s'.
Proof.
  intros Hinv Hs. destruct Hs as [s req|s i t Hi Hnd|s i t r Hi Hpc].
  - destruct Hinv as (Hq & Hd & Hnd & Hdom & Hdr). destruct (spawn_fresh req) as [Ho Hr].
    unfold pool_inv; cbn [sv_world sv_pool]. rewrite !bind_app. cbn. rewrite Ho, Hr, !app_nil_r. done.
  - by apply pool_inv_run.
  - destruct Hinv as (Hq & Hd & Hnd & Hdom & Hdr).
    assert (owned t = [] ∧ reserved t = []) as [Ho Hr] by (unfold reserved, owned; by rewrite Hpc).
    unfold pool_inv; cbn [sv_world sv_pool].
    rewrite (pool_perm _ _ _ _ Hi), Hr in Hnd, Hdr. rewrite (pool_perm _ _ _ _ Hi), Ho in Hdom. done.
Qed.

Lemma pool_inv_reachable s s' : pool_inv s → rtc server_step s s' → pool_inv s'.
Proof. intros Hs Hr. induction Hr as [|s1 s2 s3 H12 _ IH]; [done|]. apply IH. by eapply pool_inv_step. Qed.

Lemma pool_inv_init w w0 :
  w_files w = ∅ → w_quota w = None → startup w = (Ret tt, w0) → pool_inv (server_init w0).
Proof.
  intros Hf Hq (Hd & Hf0 & Hq0)%startup_Ret. unfold pool_inv; cbn.
  rewrite Hf0, Hf, Hq0, Hq, dom_empty_L. repeat split; try done; constructor.
Qed.

End PoolInv.

(** ** Draining the pool *)

(** The steps a pool may still take. *)
Definition pool_measure (l : list rthread) : nat := sum_list_with (λ t, S (thread_measure t)) l.

Lemma pool_measure_cons t l : pool_measure (t :: l) = S (thread_measure t) + pool_measure l.
Proof. reflexivity. Qed.

Lemma pool_measure_perm l k : l ≡ₚ k → pool_measure l = pool_measure k.
Proof. induction 1; rewrite ?pool_measure_cons; lia. Qed.

Section Drain.
Context `{Pillow} `{Mtcnn} `{DeepFace} `{Werkzeug} `{Uuid}.

(** A move of the server that accepts no new request: the pool does not
    grow. *)
Definition work_step (s s' : tserver) : Prop :=
  server_step s s' ∧ length (sv_pool s') ≤ length (sv_pool s).

Lemma work_step_measure s s' : work_step s s' → pool_measure (sv_pool s') < pool_measure (sv_pool s).
Proof.
  intros [Hs Hl]. destruct Hs as [s req|s i t Hi Hnd|s i t r Hi Hpc]; cbn [sv_pool sv_world sv_out] in *.
  - rewrite length_app in Hl. cbn in Hl. lia.
  - rewrite (pool_measure_perm _ _ (insert_Permutation _ i _ t Hi)),
            (pool_measure_perm _ _ (delete_Permutation _ i t Hi)), !pool_measure_cons.
    pose proof (thread_step_measure t (sv_world s) Hnd). lia.
  - rewrite (pool_measure_perm (sv_pool s) _ (delete_Permutation _ i t Hi)), pool_measure_cons. lia.
Qed.

(** No run of the server that accepts no new request is infinite. *)
Lemma work_sn s : sn work_step s.
Proof.
  apply (Acc_impl (λ x y, pool_measure (sv_pool x) < pool_measure (sv_pool y))).
  - apply (wf_projected (<) (λ s, pool_measure (sv_pool s))); [done|apply lt_wf].
  - intros x y Hxy. by apply work_step_measure.
Qed.

(** Such a run answers a request for each one it retires. *)
Lemma work_out s s' :
  rtc work_step s s' → length (sv_out s') + length (sv_pool s') = length (sv_out s) + length (sv_pool s).
Proof.
  induction 1 as [|s1 s2 s3 [H12 Hl] _ IH]; [done|]. rewrite IH.
  destruct H12 as [s req|s i t Hi Hnd|s i t r Hi Hpc]; cbn in *.
  - rewrite length_app in Hl. cbn in Hl. lia.
  - by rewrite length_insert.
  - rewrite length_app, length_delete by eauto. apply lookup_lt_Some in Hi. cbn. lia.
Qed.

(** A request in flight can always move: it steps, or it is answered. *)
Lemma work_progress s : nf work_step s → sv_pool s = [].
Proof.
  intros Hnf. destruct s as [w [|t rest] out]; [done|]. exfalso. apply Hnf.
  destruct (is_done t) eqn:Hd.
  - destruct t as [[] sp]; try done. eexists. split; [by eapply (SReply (mkServer w (_ :: rest) out) 0)|].
    cbn. lia.
  - eexists. split; [by apply (SRun (mkServer w (t :: rest) out) 0 t)|]. cbn. lia.
Qed.

Lemma work_rtc s s' : rtc work_step s s' → rtc server_step s s'.
Proof. induction 1 as [|s1 s2 s3 [H12 _] _ IH]; [done|]. by eapply rtc_l. Qed.

(** Stepping and answering the first request in flight, over and over,
    empties the pool. *)
Lemma drain s : ∃ s', rtc work_step s s' ∧ sv_pool s' = [].
Proof.
  remember (pool_measure (sv_pool s)) as n eqn:Hn. revert s Hn.
  induction (lt_wf n) as [n _ IH]; intros [w [|t rest] out] Hn; cbn [sv_pool sv_out sv_world] in *;
    rewrite ?pool_measure_cons in Hn; [by exists (mkServer w [] out)|].
  destruct (is_done t) eqn:Hd.
  - destruct t as [[] sp]; try done.
    destruct (IH (pool_measure rest) ltac:(lia) (mkServer w rest (out ++ [resp])) eq_refl)
      as (s' & Hr & Hp).
    exists s'. split; [|done]. eapply rtc_l; [|exact Hr].
    split; [by eapply (SReply (mkServer w (_ :: rest) out) 0)|]. cbn. lia.
  - pose proof (thread_step_measure t w Hd) as Hlt.
    destruct (IH (pool_measure ((thread_step t w).1 :: rest)) ltac:(rewrite pool_measure_cons; lia)
                (mkServer (thread_step t w).2 ((thread_step t w).1 :: rest) out) eq_refl)
      as (s' & Hr & Hp).
    exists s'. split; [|done]. eapply rtc_l; [|exact Hr].
    split; [by apply (SRun (mkServer w (t :: rest) out) 0 t)|]. cbn. lia.
Qed.

End Drain.

(** ** Theorems *)

Section ServerTheorems.
Context `{Pillow} `{Mtcnn} `{DeepFace} `{Werkzeug} `{Uuid}.

(** C19: [os.makedirs(UPLOAD_FOLDER, exist_ok=True)] succeeds when the
    directory exists or no file has its name, and then the directory
    exists and nothing else changes; when a file named [uploads] is in
    the way, start-up fails with [FileExistsError]. *)
Theorem startup_upload_dir (w : world) :
  (UPLOAD_FOLDER ∈ w_dirs w ∨ w_files w !! UPLOAD_FOLDER = None →
   ∃ w0, startup w = (Ret tt, w0) ∧ UPLOAD_FOLDER ∈ w_dirs w0 ∧
         w_files w0 = w_files w ∧ w_quota w0 = w_quota w) ∧
  (UPLOAD_FOLDER ∉ w_dirs w → is_Some (w_files w !! UPLOAD_FOLDER) →
   startup w = (Raise (FileExistsError UPLOAD_FOLDER), w)).
Proof.
  split.
  - intros (w0 & Hs)%startup_ok. exists w0. split; [done|]. by apply startup_Ret.
  - intros Hd [i Hi]. unfold startup, os_makedirs. by rewrite bool_decide_false, Hi.
Qed.

(** C15: after a successful start-up the upload directory exists in
    every state the threaded server reaches, whatever requests it
    accepts and however their steps interleave. *)
Theorem reachable_keeps_upload_dir (w w0 : world) (s : tserver) :
  startup w = (Ret tt, w0) → rtc server_step (server_init w0) s → UPLOAD_FOLDER ∈ w_dirs (sv_world s).
Proof.
  intros (Hd & _)%startup_Ret. revert s.
  apply (rtc_ind_r (λ s, UPLOAD_FOLDER ∈ w_dirs (sv_world s))); [done|].
  intros s1 s2 _ H12 IH. by rewrite (server_step_dirs _ _ H12).
Qed.

(** C11: started on an empty disk without write limit, the threaded
    server keeps every file on its disk owned by exactly one request in
    flight, whatever requests it accepts and however their steps
    interleave: the disk holds exactly the saved uploads and temporary
    crops the requests in flight have written and not yet removed, no
    two requests ever own the same path, and when no request is in
    flight the disk is empty. *)
Theorem server_files_owned `{!UuidLaws} `{!WerkzeugLaws} (w w0 : world) (s : tserver) :
  w_files w = ∅ → w_quota w = None → startup w = (Ret tt, w0) → rtc server_step (server_init w0) s →
  dom (w_files (sv_world s)) = list_to_set (sv_pool s ≫= owned) ∧ NoDup (sv_pool s ≫= owned) ∧
  (sv_pool s = [] → w_files (sv_world s) = ∅).
Proof.
  intros Hf Hq Hs Hr. destruct (pool_inv_reachable _ _ (pool_inv_init w w0 Hf Hq Hs) Hr)
    as (_ & _ & Hnd & Hdom & _).
  split; [done|]. split; [exact (NoDup_submseteq_inv _ _ (pool_owned_reserved _) Hnd)|].
  intros Hp. rewrite Hp in Hdom. by apply dom_empty_iff_L.
Qed.

(** C14: from every state the threaded server reaches from an empty
    disk without write limit, if no new request arrives, every schedule
    of the requests in flight ends: there is no infinite run of steps
    and answers; a run that cannot go on has answered every request in
    flight, one answer each, and left the disk empty; and such a run
    exists. *)
Theorem server_drains `{!UuidLaws} `{!WerkzeugLaws} (w w0 : world) (s : tserver) :
  w_files w = ∅ → w_quota w = None → startup w = (Ret tt, w0) → rtc server_step (server_init w0) s →
  sn work_step s ∧
  (∀ s', rtc work_step s s' → nf work_step s' →
         sv_pool s' = [] ∧ length (sv_out s') = length (sv_out s) + length (sv_pool s) ∧
         w_files (sv_world s') = ∅) ∧
  (∃ s', rtc work_step s s' ∧ nf work_step s').
Proof.
  intros Hf Hq Hs Hr. split; [apply work_sn|]. split.
  - intros s' Hr' Hnf. pose proof (work_progress _ Hnf) as Hp. pose proof (work_out _ _ Hr') as Hl.
    rewrite Hp in Hl. cbn in Hl. split; [done|]. split; [lia|].
    destruct (pool_inv_reachable _ _ (pool_inv_init w w0 Hf Hq Hs) (rtc_trans _ _ _ Hr (work_rtc _ _ Hr')))
      as (_ & _ & _ & Hdom & _).
    rewrite Hp in Hdom. by apply dom_empty_iff_L.
  - destruct (drain s) as (s' & Hr' & Hp). exists s'. split; [done|].
    intros [s'' [Hst Hl]]. rewrite Hp in Hl. cbn in Hl.
    destruct Hst as [? req|? i t Hi _|? i t r' Hi _]; rewrite ?Hp in *; cbn in *; (lia || done).
Qed.

End ServerTheorems.

(** ** Witnesses *)

(** A disk with nothing on it, before start-up. *)
Definition fresh_world : world := mkWorld ∅ ∅ 0 None [].

Lemma startup_fresh : startup fresh_world = (Ret tt, empty_world).
Proof. vm_compute. reflexivity. Qed.

Section ServerWitnesses.
#[local] Existing Instance scenario_deepface.
#[local] Existing Instance scenario_mtcnn.

(** The scenario request accepted, then its first save done. *)
Definition scenario_accepted : tserver := mkServer empty_world [spawn scenario_request] [].

Definition scenario_saved_one : tserver :=
  mkServer (thread_step (spawn scenario_request) empty_world).2
           [(thread_step (spawn scenario_request) empty_world).1] [].

Lemma scenario_reach : rtc server_step (server_init empty_world) scenario_saved_one.
Proof.
  eapply rtc_l; [apply (SAccept (server_init empty_world) scenario_request)|].
  apply rtc_once. apply (SRun scenario_accepted 0 (spawn scenario_request)); [done|].
  vm_compute. reflexivity.
Qed.

(** Witness of C19, on a fresh disk. *)
Lemma startup_upload_dir_witness :
  ∃ w0, startup fresh_world = (Ret tt, w0) ∧ UPLOAD_FOLDER ∈ w_dirs w0.
Proof.
  destruct (proj1 (startup_upload_dir fresh_world) (or_intror eq_refl)) as (w0 & Hs & Hd & _).
  exists w0. split; [exact Hs|exact Hd].
Defined.

(** Witness of C15: after the scenario request's first upload is saved. *)
Lemma reachable_keeps_upload_dir_witness : UPLOAD_FOLDER ∈ w_dirs (sv_world scenario_saved_one).
Proof. apply (reachable_keeps_upload_dir fresh_world empty_world); [apply startup_fresh|apply scenario_reach]. Defined.

(** Witness of C11: the saved selfie is owned by the request in flight. *)
Lemma server_files_owned_witness :
  dom (w_files (sv_world scenario_saved_one)) = list_to_set (sv_pool scenario_saved_one ≫= owned).
Proof.
  apply (server_files_owned fresh_world empty_world); [done|done|apply startup_fresh|apply scenario_reach].
Defined.

(** Witness of C14: the scenario request, interrupted after its first
    save, can be finished; every way of finishing it answers it and
    leaves the disk empty. *)
Lemma server_drains_witness :
  ∃ s', rtc work_step scenario_saved_one s' ∧ nf work_step s'.
Proof.
  apply (server_drains fresh_world empty_world); [done|done|apply startup_fresh|apply scenario_reach].
Defined.

End ServerWitnesses.
